(** * Theia browser IDE fragment: semantic-highlighting decorations and the output view

    A shallow embedding of
    - [packages/monaco/src/browser/monaco-semantic-highlighting-service.ts]
      (module [Highlighting]) and
    - [packages/output/src/browser/output-widget.ts] (module [Output]),
    with the editor interface of [packages/editor/src/browser/editor.ts].

    JavaScript objects that are shared by reference (editors, output channels)
    live in a store indexed by a reference; [===] on objects is equality of
    references.  A JavaScript [number] holding a line or a column is a [Z]. *)

From Stdlib Require Import ZArith Ascii String HexString.
From stdpp Require Import base option list functions gmap strings pretty.

Local Open Scope Z_scope.
Local Open Scope string_scope.
Local Open Scope list_scope.

(** A reference to an object of the JavaScript heap. *)
Abbreviation ref := nat.

(** How a call ends: it returns a value or it throws. *)
Inductive outcome (A : Type) : Type :=
| Returned (a : A)
| Thrown (message : string).
Arguments Returned {A} a.
Arguments Thrown {A} message.

(** * The semantic highlighting service *)
Module Highlighting.

(** [Position] and [Range] of vscode-languageserver-types. *)
Record Position := { line : Z; character : Z }.

Module Range.
Record t := { start : Position; end_ : Position }.
Definition create (start end_ : Position) : t :=
  {| start := start; end_ := end_ |}.
End Range.

(** [SemanticHighlightingRange extends Range] with the scopes of the span. *)
Record SemanticHighlightingRange := {
  start : Position;
  end_ : Position;
  scopes : list string
}.

Record EditorDecorationOptions := { inlineClassName : option string }.

Record EditorDecoration := {
  range : Range.t;
  options : EditorDecorationOptions
}.

(** [DeltaDecorationParams] of editor.ts.  The service builds the object
    without its [uri] property, hence the option. *)
Record DeltaDecorationParams := {
  uri : option string;
  oldDecorations : list string;
  newDecorations : list EditorDecoration
}.

(** The [TextEditor] interface of editor.ts, as far as the service uses it:
    [deltaDecorations] applies the new decorations, removes the old ones
    identified by their ids and returns the ids of the applied ones.  The
    implementation is the embedded editor's; it may throw. *)
Class TextEditor (E : Type) := {
  deltaDecorations : E → DeltaDecorationParams → E * outcome (list string)
}.

Module URI.
Record t := { toString : string }.
End URI.

(** Helper tuple type with text editor decoration IDs and the raw
    highlighting ranges. *)
Module DecorationWithRanges.
Record t := {
  decorations : list string;
  ranges : list SemanticHighlightingRange
}.
Definition EMPTY : t := {| decorations := []; ranges := [] |}.
End DecorationWithRanges.

(** The closure [() => this.deleteDecorations(key, editor)]. *)
Inductive Callback :=
| DeleteDecorations (key : string) (editor : ref).

#[warnings="-register-all"]
Inductive Disposable :=
| Subscription (editor : ref) (listener : Callback)
    (* what [editor.onDispose(listener)] returns *)
| DeleteOnClose (key : string)
    (* [Disposable.create(() => this.toDisposeOnEditorClose.delete(key))] *)
| DisposableCollection (items : list Disposable).

Record EditorWidget := { editor : ref }.

(** The fields of [MonacoSemanticHighlightingService]. *)
Record Service := {
  toDisposeOnEditorClose : gmap string Disposable;
  decorations : gmap string DecorationWithRanges.t;
  colorMapCache : gmap string string
}.

Section Service.

Context {E : Type} `{!TextEditor E}.

(** The token theme of the embedded editor:
    [tokenTheme()._match(scope).metadata] and
    [TokenMetadata.getClassNameFromMetadata]. *)
Variable theme_match : string → Z.
Variable getClassNameFromMetadata : Z → string.

(** An editor object: whether it is an [instanceof MonacoEditor], the state
    of the embedded editor, the listeners registered with [onDispose], and
    the [deltaDecorations] calls it has received, oldest first. *)
Record EditorObject := {
  isMonacoEditor : bool;
  model : E;
  onDisposeListeners : list Callback;
  calls : list DeltaDecorationParams
}.

Record World := {
  service : Service;
  getByUri : URI.t → option EditorWidget;   (* the editor manager *)
  editors : ref → EditorObject
}.

(** Computations over the world that may throw; the state survives a throw. *)
Definition M (A : Type) : Type := World → World * outcome A.

#[export] Instance M_ret : MRet M := λ A a w, (w, Returned a).
#[export] Instance M_bind : MBind M := λ A B f m w,
  match m w with
  | (w', Returned a) => f a w'
  | (w', Thrown e) => (w', Thrown e)
  end.

Definition gets {A} (f : World → A) : M A := λ w, (w, Returned (f w)).
Definition modify (f : World → World) : M unit := λ w, (f w, Returned tt).

Definition set_service (f : Service → Service) (w : World) : World :=
  {| service := f (service w); getByUri := getByUri w; editors := editors w |}.

Definition set_editor (r : ref) (f : EditorObject → EditorObject) (w : World) : World :=
  {| service := service w; getByUri := getByUri w;
     editors := <[r := f (editors w r)]> (editors w) |}.

(** [editor.onDispose(listener)]: registers the listener and returns the
    subscription. *)
Definition onDispose (r : ref) (listener : Callback) : M Disposable := λ w,
  (set_editor r (λ o,
     {| isMonacoEditor := isMonacoEditor o; model := model o;
        onDisposeListeners := onDisposeListeners o ++ [listener];
        calls := calls o |}) w,
   Returned (Subscription r listener)).

(** [editor.deltaDecorations(params)] on the editor object [r]. *)
Definition editor_deltaDecorations (r : ref) (params : DeltaDecorationParams)
  : M (list string) := λ w,
  let o := editors w r in
  let '(m', res) := deltaDecorations (model o) params in
  (set_editor r (λ o,
     {| isMonacoEditor := isMonacoEditor o; model := m';
        onDisposeListeners := onDisposeListeners o;
        calls := calls o ++ [params] |}) w,
   res).

Definition toOptions (scopes : list string) : EditorDecorationOptions :=
  match scopes with
  | scope :: _ =>
      let metadata := theme_match scope in
      let inlineClassName := getClassNameFromMetadata metadata in
      {| inlineClassName := Some inlineClassName |}
  | [] => {| inlineClassName := None |}
  end.

Definition toDecoration (range : SemanticHighlightingRange) : EditorDecoration :=
  let start := {| line := line (start range);
                  character := character (start range) + 2 |} in
  let end_ := {| line := line (end_ range);
                 character := character (end_ range) + 2 |} in
  let options := toOptions (scopes range) in
  {| range := Range.create start end_; options := options |}.

(** The lines of the new state: [new Set(ranges.map(r => r.start.line))]. *)
Definition affectedLines (ranges : list SemanticHighlightingRange) : gset Z :=
  list_to_set (map (λ r, line (start r)) ranges).

(** [oldState.ranges.filter(r => !affectedLines.has(r.start.line)).concat(ranges)] *)
Definition rangesToCache (oldState : DecorationWithRanges.t)
    (ranges : list SemanticHighlightingRange) : list SemanticHighlightingRange :=
  let affectedLines := affectedLines ranges in
  filter (λ r, line (start r) ∉ affectedLines) (DecorationWithRanges.ranges oldState)
    ++ ranges.

(** [decorate] first awaits the editor manager; what follows the [await] runs
    without interruption, on the world of that moment. *)
Definition decorate (uri : URI.t) (ranges : list SemanticHighlightingRange) : M unit :=
  editorWidget ← gets (λ w, getByUri w uri);
  match editorWidget with
  | None => mret tt
  | Some editorWidget =>
    isMonaco ← gets (λ w, isMonacoEditor (editors w (editor editorWidget)));
    if negb isMonaco then mret tt else
    let editor := editor editorWidget in
    let key := URI.toString uri in
    has ← gets (λ w, bool_decide (is_Some (toDisposeOnEditorClose (service w) !! key)));
    (if negb has then
       subscription ← onDispose editor (DeleteDecorations key editor);
       modify (set_service (λ s,
         {| toDisposeOnEditorClose :=
              <[key := DisposableCollection [subscription; DeleteOnClose key]]>
                (toDisposeOnEditorClose s);
            decorations := decorations s;
            colorMapCache := colorMapCache s |}))
     else mret tt);;
    oldState ← gets (λ w, default DecorationWithRanges.EMPTY (decorations (service w) !! key));
    let rangesToCache := rangesToCache oldState ranges in
    let newDecorations := map toDecoration rangesToCache in
    let oldDecorations := DecorationWithRanges.decorations oldState in
    newState ← editor_deltaDecorations editor
      {| uri := None; newDecorations := newDecorations; oldDecorations := oldDecorations |};
    modify (set_service (λ s,
      {| toDisposeOnEditorClose := toDisposeOnEditorClose s;
         decorations :=
           <[key := {| DecorationWithRanges.ranges := rangesToCache;
                       DecorationWithRanges.decorations := newState |}]> (decorations s);
         colorMapCache := colorMapCache s |}))
  end.

Definition deleteDecorations (uri : string) (editor : ref) : M unit :=
  decorationWithRanges ← gets (λ w, decorations (service w) !! uri);
  match decorationWithRanges with
  | Some decorationWithRanges =>
    let oldDecorations := DecorationWithRanges.decorations decorationWithRanges in
    editor_deltaDecorations editor
      {| uri := None; newDecorations := []; oldDecorations := oldDecorations |};;
    modify (set_service (λ s,
      {| toDisposeOnEditorClose := toDisposeOnEditorClose s;
         decorations := delete uri (decorations s);
         colorMapCache := colorMapCache s |}))
  | None => mret tt
  end.

(** Modelled from the spec: [MonacoEditor] and its [onDispose] event are not
  among these sources.  Closing an editor fires the event, which calls the
  registered listeners in the order of their registration.  A listener is
  an [async] function: when it throws, its promise is rejected and the
  event goes on. *)
Definition runListener (listener : Callback) : M unit :=
match listener with
| DeleteDecorations key editor => λ w, ((deleteDecorations key editor w).1, Returned tt)
end.

Definition closeEditor (r : ref) : M unit :=
listeners ← gets (λ w, onDisposeListeners (editors w r));
foldr (λ listener rest, runListener listener;; rest) (mret tt) listeners.

(** The two steps of [decorate], named for the statements about it: the world
  after the registration of the close listener (lines 54 to 59), and the
  parameters of the [deltaDecorations] call (lines 62 to 74). *)
Definition registered (key : string) (editor : ref) (w : World) : World :=
if bool_decide (is_Some (toDisposeOnEditorClose (service w) !! key)) then w
else
  set_service (λ s,
  {| toDisposeOnEditorClose :=
       <[key := DisposableCollection
                  [Subscription editor (DeleteDecorations key editor); DeleteOnClose key]]>
         (toDisposeOnEditorClose s);
     decorations := decorations s;
     colorMapCache := colorMapCache s |})
  (set_editor editor (λ o,
     {| isMonacoEditor := isMonacoEditor o; model := model o;
        onDisposeListeners := onDisposeListeners o ++ [DeleteDecorations key editor];
        calls := calls o |}) w).

Definition decorateParams (oldState : DecorationWithRanges.t)
  (ranges : list SemanticHighlightingRange) : DeltaDecorationParams :=
{| uri := None;
   oldDecorations := DecorationWithRanges.decorations oldState;
   newDecorations := map toDecoration (rangesToCache oldState ranges) |}.

End Service.

Arguments EditorObject E : clear implicits.
Arguments World E : clear implicits.
Arguments M E A : clear implicits.

(** Modelled from the spec: the embedded editor is not among these sources.
    This reference editor follows the documentation of [deltaDecorations] in
    editor.ts: it removes the decorations identified by the old ids, applies
    the new ones under fresh ids and returns these ids. *)
Module ReferenceEditor.

Record t := {
  nextId : nat;
  applied : list (string * EditorDecoration)
}.

Definition freshIds (next count : nat) : list string :=
map (λ i, "d" +:+ pretty i) (seq next count).

Definition delta (m : t) (params : DeltaDecorationParams) : t * outcome (list string) :=
let kept := filter (λ d, d.1 ∉ oldDecorations params) (applied m) in
let ids := freshIds (nextId m) (length (newDecorations params)) in
({| nextId := (nextId m + length (newDecorations params))%nat;
    applied := kept ++ zip ids (newDecorations params) |},
 Returned ids).

#[global] Instance textEditor : TextEditor t := {| deltaDecorations := delta |}.

Definition empty : t := {| nextId := 0; applied := [] |}.

End ReferenceEditor.

(** An embedded editor whose [deltaDecorations] always throws. *)
Module BrokenEditor.

Definition delta (m : unit) (params : DeltaDecorationParams) : unit * outcome (list string) :=
(m, Thrown "disposed").

#[global] Instance textEditor : TextEditor unit := {| deltaDecorations := delta |}.

End BrokenEditor.

End Highlighting.

(** * The output view *)
Module Output.

(** An output channel object, as the widget reads it: [name], [getLines()]
    and [isVisible]. *)
Record OutputChannel := {
  name : string;
  lines : list string;
  isVisible : bool
}.

(** Modelled from the spec: [OutputChannelManager] is not among these
    sources.  The widget holds [a per-channel list of text lines plus a
    visibility flag] through the manager; [channels] is what [getChannels()]
    returns, in the manager's order, and [objects] are the channel objects
    behind the references. *)
Record Store := {
  objects : ref → OutputChannel;
  channels : list ref
}.

(** Virtual DOM of @phosphor/virtualdom. *)
Inductive Attr :=
| attr (key value : string)
| onchangeHandler.

#[warnings="-register-all"]
Inductive VirtualNode :=
| VirtualText (content : string)
| VirtualElement (tag : string) (attrs : list Attr) (children : list VirtualNode).

(** [h.Child]: a node or an array of nodes. *)
Inductive Child :=
| One (node : VirtualNode)
| Many (nodes : list VirtualNode).

(** [h.div(text)], [h.div(attrs, children)], [h.option], [h.select]. *)
Definition h_text (tag : string) (attrs : list Attr) (text : string) : VirtualNode :=
VirtualElement tag attrs [VirtualText text].

Definition h_div (attrs : list Attr) (children : list VirtualNode) : VirtualNode :=
VirtualElement "div" attrs children.

Definition h_option (attrs : list Attr) (text : string) : VirtualNode :=
h_text "option" attrs text.

Definition h_select (attrs : list Attr) (children : list VirtualNode) : VirtualNode :=
VirtualElement "select" attrs children.

(** Modelled from the spec: [VirtualRenderer.flatten] of the core package is
    not among these sources; it merges the children, nodes and arrays of
    nodes, into one array, in order. *)
Definition flatten (children : list Child) : list VirtualNode :=
fold_left (λ prev current,
  prev ++ match current with One node => [node] | Many nodes => nodes end)
  children [].

(** The listeners the widget has pushed to [toDispose]. *)
Inductive Subscription :=
| ChannelAdded
| ChannelDelete
| ContentChange (outputChannel : ref)
| VisibilityChange (outputChannel : ref).

(** The widget: its selected channel, the listeners it registered, whether an
    update request is pending, and the virtual DOM of its last rendering. *)
Record OutputWidget := {
  selectedChannel : option ref;
  toDispose : list Subscription;
  updateRequested : bool;
  dom : list VirtualNode
}.

Record World := {
  store : Store;
  widget : OutputWidget
}.

Definition OUTPUT_CONTENTS_ID : string := "outputContents".
Definition NONE : string := "<no channels>".

Definition set_widget (f : OutputWidget → OutputWidget) (w : World) : World :=
{| store := store w; widget := f (widget w) |}.

Definition set_selectedChannel (channel : option ref) : World → World :=
set_widget (λ o,
  {| selectedChannel := channel; toDispose := toDispose o;
     updateRequested := updateRequested o; dom := dom o |}).

Definition push_toDispose (s : Subscription) : World → World :=
set_widget (λ o,
  {| selectedChannel := selectedChannel o; toDispose := toDispose o ++ [s];
     updateRequested := updateRequested o; dom := dom o |}).

(** [this.update()]: posts an update request to the widget. *)
Definition update : World → World :=
set_widget (λ o,
  {| selectedChannel := selectedChannel o; toDispose := toDispose o;
     updateRequested := true; dom := dom o |}).

Definition getVisibleChannels (w : World) : list ref :=
filter (λ channel, isVisible (objects (store w) channel) = true) (channels (store w)).

Definition isLineBreak (c : ascii) : bool :=
bool_decide (c = "010"%char) || bool_decide (c = "013"%char).

(** [text.split(/([\n\r]+)/)]: the text is cut at every maximal run of line
    breaks, and, the pattern being a capturing group, each run is spliced
    into the result between the pieces it separates.  [piece] is the piece
    being read, [inRun] tells whether it is a run of line breaks. *)
Fixpoint split_from (inRun : bool) (piece : string) (text : string) : list string :=
match text with
| EmptyString => if inRun then [piece; ""] else [piece]
| String c rest =>
    if isLineBreak c then
      if inRun then split_from true (piece +:+ String c "") rest
      else piece :: split_from true (String c "") rest
    else
      if inRun then piece :: split_from false (String c "") rest
      else split_from false (piece +:+ String c "") rest
end.

Definition split (text : string) : list string := split_from false "" text.

Definition toHtmlText (text : string) : list VirtualNode :=
let result := [] in
if bool_decide (text ≠ "") then
  let lines := split text in
  fold_left (λ result line, result ++ [h_text "div" [] line]) lines result
else
  result ++ [h_text "div" [] "<no output yet>"].

Definition renderChannelContents (w : World) : VirtualNode :=
match selectedChannel (widget w) with
| Some selectedChannel =>
    h_div [attr "id" OUTPUT_CONTENTS_ID]
      (flatten (map (λ line, Many (toHtmlText line))
                    (lines (objects (store w) selectedChannel))))
| None => h_div [attr "id" OUTPUT_CONTENTS_ID] []
end.

Definition renderChannelSelector (w : World) : VirtualNode :=
let channelOptionElements :=
  fold_left (λ channelOptionElements channel,
    let name := name (objects (store w) channel) in
    let attrs := [attr "value" name] in
    let attrs :=
      if bool_decide (Some channel = selectedChannel (widget w))
      then attrs ++ [attr "selected" "selected"] else attrs in
    channelOptionElements ++ [One (h_option attrs name)])
    (getVisibleChannels w) [] in
let channelOptionElements :=
  if bool_decide (length channelOptionElements = 0%nat)
  then channelOptionElements ++ [One (h_option [attr "value" NONE] NONE)]
  else channelOptionElements in
h_select [attr "id" "outputChannelList"; onchangeHandler]
  (flatten channelOptionElements).

Definition render (w : World) : list VirtualNode :=
[renderChannelSelector w; renderChannelContents w].

(** Modelled from the spec: [VirtualWidget] of the core package is not among
    these sources; handling the update request renders the widget anew
    ([the widget renders data held by a manager object]). *)
Definition onUpdateRequest (w : World) : World :=
set_widget (λ o,
  {| selectedChannel := selectedChannel o; toDispose := toDispose o;
     updateRequested := false; dom := render w |}) w.

Definition registerListener (outputChannel : ref) (w : World) : World :=
let w :=
  match selectedChannel (widget w) with
  | None => set_selectedChannel (Some outputChannel) w
  | Some _ => w
  end in
let w := push_toDispose (ContentChange outputChannel) w in
push_toDispose (VisibilityChange outputChannel) w.

(** The listener of [outputChannel.onContentChange]. *)
Definition onContentChange (outputChannel : ref) (w : World) : World :=
if bool_decide (Some outputChannel = selectedChannel (widget w)) then update w else w.

(** The listener of [outputChannel.onVisibilityChange]; [visible] is
    [event.visible]. *)
Definition onVisibilityChange (outputChannel : ref) (visible : bool) (w : World) : World :=
let w :=
  if visible then set_selectedChannel (Some outputChannel) w
  else if bool_decide (Some outputChannel = selectedChannel (widget w))
  then set_selectedChannel (getVisibleChannels w !! 0%nat) w
  else w in
update w.

(** The listener of [outputChannelManager.onChannelAdded]. *)
Definition onChannelAdded (channel : ref) (w : World) : World :=
update (registerListener channel w).

(** The listener of [outputChannelManager.onChannelDelete]; [channelName] is
    [event.channelName]. *)
Definition onChannelDelete (channelName : string) (w : World) : World :=
let w :=
  match selectedChannel (widget w) with
  | Some selectedChannel =>
      if bool_decide (name (objects (store w) selectedChannel) = channelName)
      then set_selectedChannel (getVisibleChannels w !! 0%nat) w
      else w
  | None => w
  end in
update w.

Definition init (w : World) : World :=
let w := fold_left (λ w channel, registerListener channel w) (channels (store w)) w in
let w := push_toDispose ChannelAdded w in
let w := push_toDispose ChannelDelete w in
update w.

Section ChannelSelector.

(** [outputChannelManager.getChannel(channelName)]; the manager is not among
    these sources, so the call is a parameter: it yields a channel or
    [undefined] and may change the manager's channels. *)
Variable getChannel : Store → string → option ref * Store.

(** The [onchange] handler of the channel selector; [channelName] is the
    value of the selected option. *)
Definition onchange (channelName : string) (w : World) : World :=
if bool_decide (channelName ≠ NONE) then
  let '(channel, store') := getChannel (store w) channelName in
  update (set_selectedChannel channel {| store := store'; widget := widget w |})
else w.

End ChannelSelector.

(** Modelled from the spec: a [getChannel] for which [channel not found, do
    nothing] holds on the manager's side: it looks the name up among the
    manager's channels, yields [undefined] when no channel has it, and
    leaves the manager as it is. *)
Definition lookupChannel (st : Store) (channelName : string) : option ref * Store :=
(filter (λ channel, name (objects st channel) = channelName) (channels st) !! 0%nat, st).

(** The spec's words for the contents pane: a line is [split on runs of
    newline/carriage-return characters into one div per segment]; the
    segments are the pieces between the runs. *)
Fixpoint segments_from (inRun : bool) (piece : string) (text : string) : list string :=
match text with
| EmptyString => if inRun then [""] else [piece]
| String c rest =>
    if isLineBreak c then
      if inRun then segments_from true piece rest
      else piece :: segments_from true "" rest
    else
      if inRun then segments_from false (String c "") rest
      else segments_from false (piece +:+ String c "") rest
end.

Definition spec_segments (text : string) : list string := segments_from false "" text.

Definition spec_toHtmlText (text : string) : list VirtualNode :=
if bool_decide (text ≠ "") then map (h_text "div" []) (spec_segments text)
else [h_text "div" [] "<no output yet>"].

End Output.

(** * Reading the output view's statements

    The notions the statements about the output view are phrased with. *)
Module OutputSpec.

Import Output.

Fixpoint all_chars (P : ascii → bool) (s : string) : bool :=
match s with
| EmptyString => true
| String c rest => P c && all_chars P rest
end.

(** A run of line breaks, and a segment: a piece without any line break. *)
Definition is_run (piece : string) : Prop :=
piece ≠ "" ∧ all_chars isLineBreak piece = true.

Definition is_segment (piece : string) : Prop :=
all_chars (λ c, negb (isLineBreak c)) piece = true.

(** Segments and runs take turns; [inRun] tells what the first piece is. *)
Fixpoint alternate (inRun : bool) (pieces : list string) : Prop :=
match pieces with
| [] => True
| piece :: rest =>
    (if inRun then is_run piece else is_segment piece) ∧ alternate (negb inRun) rest
end.

Definition concat_pieces (pieces : list string) : string :=
foldr String.append "" pieces.

(** [channel] is the first visible channel in the manager's order, or
    [undefined] when no channel is visible. *)
Definition first_visible (st : Store) (channel : option ref) : Prop :=
match channel with
| Some c =>
    ∃ before after,
      channels st = before ++ c :: after ∧
      isVisible (objects st c) = true ∧
      Forall (λ c', isVisible (objects st c') = false) before
| None => Forall (λ c', isVisible (objects st c') = false) (channels st)
end.

(** The contents pane in the spec's words: one div per segment of a line. *)
Definition spec_renderChannelContents (w : World) : VirtualNode :=
match selectedChannel (widget w) with
| Some selectedChannel =>
    h_div [attr "id" OUTPUT_CONTENTS_ID]
      (concat (map spec_toHtmlText (lines (objects (store w) selectedChannel))))
| None => h_div [attr "id" OUTPUT_CONTENTS_ID] []
end.

End OutputSpec.

(** * A session of the output view

    Three channels, the second hidden; the widget is initialised and has
    rendered once. *)
Module OutputSession.

Import Output.

Definition LF : string := String "010"%char "".

Definition store0 : Store :=
{| objects := λ r,
     match r with
     | 0%nat => {| name := "stdout"; lines := ["hello"; ""]; isVisible := true |}
     | 1%nat => {| name := "build"; lines := []; isVisible := false |}
     | _ => {| name := "log"; lines := ["a" +:+ LF +:+ "b"]; isVisible := true |}
     end;
   channels := [0; 1; 2]%nat |}.

Definition world0 : World :=
{| store := store0;
   widget := {| selectedChannel := None; toDispose := [];
                updateRequested := false; dom := [] |} |}.

Definition world1 : World := onUpdateRequest (init world0).

(** The third channel is selected in the drop-down. *)
Definition world2 : World := onUpdateRequest (onchange lookupChannel "log" world1).

(** The first channel has been hidden while it is the selected one. *)
Definition world3 : World :=
{| store :=
     {| objects := <[0%nat := {| name := "stdout"; lines := ["hello"; ""]; isVisible := false |}]>
                     (objects store0);
        channels := channels store0 |};
   widget := widget world1 |}.

End OutputSession.

(** * A session of the semantic highlighting service

    Concrete worlds on which the statements below are exercised: a TypeScript
    file open in a Monaco editor (editor 0), a text file open in an editor of
    another kind (editor 1), and a file that is not open. *)
Module HighlightingSession.

Import Highlighting.

Definition theme_match (scope : string) : Z := Z.of_nat (String.length scope).

Definition getClassNameFromMetadata (metadata : Z) : string := "mtk" +:+ pretty metadata.

Definition uriA : URI.t := {| URI.toString := "file:///a.ts" |}.
Definition uriB : URI.t := {| URI.toString := "file:///notes.txt" |}.
Definition uriC : URI.t := {| URI.toString := "file:///closed.ts" |}.

Definition span (l c1 c2 : Z) (scope : string) : SemanticHighlightingRange :=
{| start := {| line := l; character := c1 |};
   end_ := {| line := l; character := c2 |};
   scopes := [scope] |}.

Definition world0 : World ReferenceEditor.t :=
{| service := {| toDisposeOnEditorClose := ∅; decorations := ∅; colorMapCache := ∅ |};
   getByUri := λ u,
     if bool_decide (URI.toString u = URI.toString uriA) then Some {| editor := 0%nat |}
     else if bool_decide (URI.toString u = URI.toString uriB) then Some {| editor := 1%nat |}
     else None;
   editors := λ r,
     {| isMonacoEditor := bool_decide (r ≠ 1%nat);
        model := ReferenceEditor.empty;
        onDisposeListeners := [];
        calls := [] |} |}.

Definition ranges1 : list SemanticHighlightingRange :=
[span 1 0 5 "keyword"; span 2 4 9 "variable"; span 2 12 15 "type"].

Definition ranges2 : list SemanticHighlightingRange :=
[span 2 4 7 "variable"; span 5 0 6 "keyword"].

Definition run {A} (m : M ReferenceEditor.t A) (w : World ReferenceEditor.t)
  : World ReferenceEditor.t := (m w).1.

(** The file is decorated once, then again. *)
Definition world1 := run (decorate theme_match getClassNameFromMetadata uriA ranges1) world0.
Definition world2 := run (decorate theme_match getClassNameFromMetadata uriA ranges2) world1.

(** What the service has cached for the file after the first call. *)
Definition cached1 : DecorationWithRanges.t :=
default DecorationWithRanges.EMPTY (decorations (service world1) !! URI.toString uriA).

(** The editor of the file is closed and the file is opened again, in a new
    editor (editor 2); it is decorated there, and that editor is closed. *)
Definition reopen (w : World ReferenceEditor.t) : World ReferenceEditor.t :=
{| service := service w;
   getByUri := λ u, if bool_decide (URI.toString u = URI.toString uriA) then Some {| editor := 2%nat |} else getByUri w u;
   editors := editors w |}.

Definition world3 := reopen (run (closeEditor 0%nat) world2).
Definition world4 := run (decorate theme_match getClassNameFromMetadata uriA ranges1) world3.
Definition world5 := run (closeEditor 2%nat) world4.

(** The same file in an embedded editor that throws. *)
Definition brokenWorld : World unit :=
{| service := {| toDisposeOnEditorClose := ∅; decorations := ∅; colorMapCache := ∅ |};
   getByUri := λ u,
     if bool_decide (URI.toString u = URI.toString uriA) then Some {| editor := 0%nat |}
     else None;
   editors := λ r,
     {| isMonacoEditor := true; model := tt; onDisposeListeners := []; calls := [] |} |}.

End HighlightingSession.

(** * Reading the rendered output view *)
Module OutputReading.

Import Output.

#[global] Instance Attr_eq_dec : EqDecision Attr.
Proof. solve_decision. Defined.

(** The text of a node: the texts below it, in order. *)
Fixpoint textContent (node : VirtualNode) : string :=
match node with
| VirtualText content => content
| VirtualElement _ _ children =>
    (fix texts (nodes : list VirtualNode) : string :=
       match nodes with
       | [] => ""
       | child :: rest => textContent child +:+ texts rest
       end) children
end.

Definition childNodes (node : VirtualNode) : list VirtualNode :=
match node with
| VirtualText _ => []
| VirtualElement _ _ children => children
end.

(** An option that carries [selected="selected"]. *)
Definition isSelectedOption (node : VirtualNode) : bool :=
match node with
| VirtualText _ => false
| VirtualElement _ attrs _ => bool_decide (attr "selected" "selected" ∈ attrs)
end.

(** The listeners that [registerListener] pushes for the channels [cs]. *)
Definition channelSubscriptions (cs : list ref) : list Subscription :=
concat (map (λ c, [ContentChange c; VisibilityChange c]) cs).

End OutputReading.

(** * The colour strings of the service

    [toColorString] of [MonacoSemanticHighlightingService]. *)
Module Colors.




End Colors.

(** * Reading the service's statements *)
Module HighlightingSpec.

Import Highlighting.

(** Every URI with cached decorations has an entry in the disposables map. *)
Definition cached_uris_are_registered (s : Service) : Prop :=
∀ key, is_Some (decorations s !! key) → is_Some (toDisposeOnEditorClose s !! key).

End HighlightingSpec.

(** * Properties of the semantic highlighting service *)
Section HighlightingProperties.

Import Highlighting.

Context {E : Type} `{!TextEditor E}.
Variable theme_match : string → Z.
Variable getClassNameFromMetadata : Z → string.

Local Abbreviation decorate := (Highlighting.decorate theme_match getClassNameFromMetadata).
Local Abbreviation decorateParams :=
  (Highlighting.decorateParams theme_match getClassNameFromMetadata).

(** With a Monaco editor found, [decorate] is the registration of the close
    listener followed by the [deltaDecorations] call and the caching of its
    result. *)
Lemma decorate_found (w : World E) uri ranges widget :
  getByUri w uri = Some widget →
  isMonacoEditor (editors w (editor widget)) = true →
  decorate uri ranges w =
    let key := URI.toString uri in
    let w1 := registered key (editor widget) w in
    let oldState := default DecorationWithRanges.EMPTY (decorations (service w1) !! key) in
    (editor_deltaDecorations (editor widget) (decorateParams oldState ranges) ≫= λ newState,
     modify (set_service (λ s,
        {| toDisposeOnEditorClose := toDisposeOnEditorClose s;
           decorations :=
             <[key := {| DecorationWithRanges.ranges := rangesToCache oldState ranges;
                         DecorationWithRanges.decorations := newState |}]> (decorations s);
           colorMapCache := colorMapCache s |}))) w1.
Proof.
  intros Hw Hm. unfold Highlighting.decorate, registered.
  unfold mbind, M_bind, gets at 1. rewrite Hw.
  unfold gets at 1. rewrite Hm. cbn [negb].
  unfold gets at 1.
  destruct (bool_decide _); cbn [negb]; reflexivity.
Qed.

(** The registration step touches neither the cache nor the embedded
    editor's state and call log. *)
Lemma registered_decorations key r (w : World E) :
  decorations (service (registered key r w)) = decorations (service w).
Proof. unfold registered. by case_bool_decide. Qed.

Lemma registered_model key r r' (w : World E) :
  model (editors (registered key r w) r') = model (editors w r').
Proof.
  unfold registered. case_bool_decide; [done|]. cbn.
  destruct (decide (r = r')) as [->|Hne].
  - by rewrite fn_lookup_insert.
  - by rewrite fn_lookup_insert_ne.
Qed.

Lemma registered_calls key r r' (w : World E) :
  calls (editors (registered key r w) r') = calls (editors w r').
Proof.
  unfold registered. case_bool_decide; [done|]. cbn.
  destruct (decide (r = r')) as [->|Hne].
  - by rewrite fn_lookup_insert.
  - by rewrite fn_lookup_insert_ne.
Qed.

(** What one [deltaDecorations] call on an editor object does to the world. *)
Lemma editor_deltaDecorations_spec r params (w : World E) :
  ∃ m' res,
    deltaDecorations (model (editors w r)) params = (m', res) ∧
    editor_deltaDecorations r params w =
      (set_editor r (λ o,
         {| isMonacoEditor := isMonacoEditor o; model := m';
            onDisposeListeners := onDisposeListeners o;
            calls := calls o ++ [params] |}) w, res).
Proof.
  unfold editor_deltaDecorations.
  destruct (deltaDecorations _ _) as [m' res]. eauto.
Qed.

(** The outcome of [decorate] with a Monaco editor found, in one statement:
    one call with the parameters built from the cached state, and, when the
    call returns, the new cache entry. *)
Lemma decorate_found_outcome (w w' : World E) uri ranges widget res :
  getByUri w uri = Some widget →
  isMonacoEditor (editors w (editor widget)) = true →
  decorate uri ranges w = (w', res) →
  let key := URI.toString uri in
  let oldState := default DecorationWithRanges.EMPTY (decorations (service w) !! key) in
  let params := decorateParams oldState ranges in
  ∃ m' called,
    deltaDecorations (model (editors w (editor widget))) params = (m', called) ∧
    calls (editors w' (editor widget)) = calls (editors w (editor widget)) ++ [params] ∧
    model (editors w' (editor widget)) = m' ∧
    match called with
    | Returned ids =>
        res = Returned tt ∧
        decorations (service w') =
          <[key := {| DecorationWithRanges.ranges := rangesToCache oldState ranges;
                      DecorationWithRanges.decorations := ids |}]> (decorations (service w))
    | Thrown e =>
        res = Thrown e ∧ decorations (service w') = decorations (service w)
    end.
Proof.
  intros Hw Hm Hd key oldState params.
  rewrite (decorate_found _ _ _ _ Hw Hm) in Hd. cbn zeta in Hd.
  rewrite registered_decorations in Hd. fold key oldState params in Hd.
  destruct (editor_deltaDecorations_spec (editor widget) params
              (registered key (editor widget) w)) as (m' & called & Hcall & Hstep).
  rewrite registered_model in Hcall.
  unfold mbind, M_bind in Hd. rewrite Hstep in Hd.
  exists m', called. split; [done|].
  destruct called as [ids|e]; cbn in Hd; injection Hd as <- <-; cbn;
    rewrite fn_lookup_insert; cbn; rewrite registered_calls, ?registered_decorations; done.
Qed.

(** Membership in the set of affected lines, read on the list of new ranges. *)
Lemma not_affected_iff (ranges : list SemanticHighlightingRange) (l : Z) :
  l ∉ affectedLines ranges ↔ Forall (λ new, l ≠ line (start new)) ranges.
Proof.
  unfold affectedLines. rewrite elem_of_list_to_set, Forall_forall.
  rewrite list_elem_of_In, in_map_iff. split.
  - intros Hn new Hin Heq. apply Hn. exists new. split; [done|].
    by apply list_elem_of_In.
  - intros Hall (new & Heq & Hin). apply (Hall new); [by apply list_elem_of_In|done].
Qed.

(** Every new range starts on an affected line, so the filter of the merge
    keeps none of them. *)
Lemma filter_affected_nil (ranges : list SemanticHighlightingRange) :
  filter (λ r, line (start r) ∉ affectedLines ranges) ranges = [].
Proof.
  assert (Hall : Forall (λ r, line (start r) ∈ affectedLines ranges) ranges).
  { apply Forall_forall. intros r Hin.
    unfold affectedLines. apply elem_of_list_to_set, list_elem_of_In, in_map_iff.
    exists r. split; [done|]. by apply list_elem_of_In. }
  generalize dependent (affectedLines ranges). intros lines Hall.
  induction Hall as [|r l Hr _ IH]; [done|].
  rewrite filter_cons_False; [exact IH|]. intros Hn. by apply Hn.
Qed.

(** C1: with a cached state for the URI (and a Monaco editor found), a
    completed [decorate] caches exactly the old ranges whose start line is the
    start line of no new range, followed by the new ranges. *)
Theorem decorate_caches_merged_ranges (w w' : World E) uri ranges widget old :
  getByUri w uri = Some widget →
  isMonacoEditor (editors w (editor widget)) = true →
  decorations (service w) !! URI.toString uri = Some old →
  decorate uri ranges w = (w', Returned tt) →
  DecorationWithRanges.ranges <$> decorations (service w') !! URI.toString uri =
    Some (filter (λ r, Forall (λ new, line (start r) ≠ line (start new)) ranges)
                 (DecorationWithRanges.ranges old) ++ ranges).
Proof.
  intros Hw Hm Hold Hd.
  destruct (decorate_found_outcome _ _ _ _ _ _ Hw Hm Hd) as (m' & called & _ & _ & _ & Hres).
  destruct called as [ids|e]; destruct Hres as [Hr Hdec]; [|discriminate].
  rewrite Hdec, lookup_insert_eq, Hold. cbn. f_equal. unfold rangesToCache. f_equal.
  apply list_filter_iff. intros r. apply not_affected_iff.
Qed.

(** The call of a completed [decorate] and the ids it has cached. *)
Lemma decorate_call_and_cached_ids (w w' : World E) uri ranges widget :
  getByUri w uri = Some widget →
  isMonacoEditor (editors w (editor widget)) = true →
  decorate uri ranges w = (w', Returned tt) →
  ∃ params ids,
    calls (editors w' (editor widget)) = calls (editors w (editor widget)) ++ [params] ∧
    deltaDecorations (model (editors w (editor widget))) params =
      (model (editors w' (editor widget)), Returned ids) ∧
    DecorationWithRanges.decorations <$> decorations (service w') !! URI.toString uri =
      Some ids.
Proof.
  intros Hw Hm Hd.
  destruct (decorate_found_outcome _ _ _ _ _ _ Hw Hm Hd)
    as (m' & called & Hcall & Hcalls & Hmodel & Hres).
  destruct called as [ids|e]; destruct Hres as [Hr Hdec]; [|discriminate].
  eexists _, ids. split; [exact Hcalls|]. split; [by rewrite Hmodel|].
  by rewrite Hdec, lookup_insert_eq.
Qed.

(** C2: after a completed [decorate] that found a Monaco editor, exactly one
    [deltaDecorations] call was made on that editor, and the ids cached for
    the URI are the ids this call returned. *)
Theorem decorate_cache_mirrors_applied_ids (w w' : World E) uri ranges widget :
  getByUri w uri = Some widget →
  isMonacoEditor (editors w (editor widget)) = true →
  decorate uri ranges w = (w', Returned tt) →
  ∃ params ids,
    calls (editors w' (editor widget)) = calls (editors w (editor widget)) ++ [params] ∧
    deltaDecorations (model (editors w (editor widget))) params =
      (model (editors w' (editor widget)), Returned ids) ∧
    DecorationWithRanges.decorations <$> decorations (service w') !! URI.toString uri =
      Some ids.
Proof.
  intros Hw Hm Hd. exact (decorate_call_and_cached_ids _ _ _ _ _ Hw Hm Hd).
Qed.

(** C3: when no editor widget is found for the URI, or the widget's editor is
    not a Monaco editor, [decorate] returns without throwing and leaves the
    whole world as it was: the decorations map, the disposables map and every
    editor. *)
Theorem decorate_without_monaco_editor_is_noop (w : World E) uri ranges :
  (getByUri w uri = None ∨
   ∃ widget, getByUri w uri = Some widget ∧
             isMonacoEditor (editors w (editor widget)) = false) →
  decorate uri ranges w = (w, Returned tt).
Proof.
  intros [Hnone | (widget & Hw & Hm)]; unfold Highlighting.decorate;
    unfold mbind, M_bind, gets at 1.
  - by rewrite Hnone.
  - rewrite Hw. unfold gets at 1. by rewrite Hm.
Qed.

(** The decoration of a range keeps the lines of the range, and has both its
    start and its end character two columns to the right of the range's; so
    its span is never the span of the range. *)
Lemma toDecoration_shifts_characters (r : SemanticHighlightingRange) :
  let d := Highlighting.toDecoration theme_match getClassNameFromMetadata r in
  line (Range.start (range d)) = line (start r) ∧
  line (Range.end_ (range d)) = line (end_ r) ∧
  character (Range.start (range d)) = character (start r) + 2 ∧
  character (Range.end_ (range d)) = character (end_ r) + 2 ∧
  Range.start (range d) ≠ start r ∧
  Range.end_ (range d) ≠ end_ r.
Proof.
  cbn. repeat split; try done.
  - intros Heq. apply (f_equal character) in Heq. cbn in Heq. lia.
  - intros Heq. apply (f_equal character) in Heq. cbn in Heq. lia.
Qed.

(** The effect of [deleteDecorations] on a URI with a cached state. *)
Lemma deleteDecorations_cached (w w' : World E) key r old res :
  decorations (service w) !! key = Some old →
  deleteDecorations key r w = (w', res) →
  let params := {| uri := None;
                   oldDecorations := DecorationWithRanges.decorations old;
                   newDecorations := [] |} in
  calls (editors w' r) = calls (editors w r) ++ [params] ∧
  (deltaDecorations (model (editors w r)) params).1 = model (editors w' r) ∧
  match (deltaDecorations (model (editors w r)) params).2 with
  | Returned _ => res = Returned tt ∧ decorations (service w') = delete key (decorations (service w))
  | Thrown e => res = Thrown e ∧ decorations (service w') = decorations (service w)
  end.
Proof.
  intros Hold Hd params. unfold deleteDecorations in Hd.
  unfold mbind, M_bind, gets at 1 in Hd. rewrite Hold in Hd. fold params in Hd.
  destruct (editor_deltaDecorations_spec r params w) as (m' & called & Hcall & Hstep).
  rewrite Hstep in Hd. rewrite Hcall. cbn.
  destruct called as [ids|e]; cbn in Hd; injection Hd as <- <-; cbn;
    rewrite fn_lookup_insert; done.
Qed.

(** Closing an editor that has the one listener of [decorate] runs
    [deleteDecorations]. *)
Lemma closeEditor_one_listener (w : World E) r key r' :
  onDisposeListeners (editors w r) = [DeleteDecorations key r'] →
  closeEditor r w = ((deleteDecorations key r' w).1, Returned tt).
Proof.
  intros Hl. unfold closeEditor, mbind, M_bind, gets at 1. rewrite Hl. cbn.
  by destruct (deleteDecorations key r' w).
Qed.

(** The close listener is registered by the first [decorate] of a URI, and by
    that one only: the registration is guarded by the disposables map. *)
Lemma decorate_registration (w w' : World E) uri ranges widget res :
  getByUri w uri = Some widget →
  isMonacoEditor (editors w (editor widget)) = true →
  decorate uri ranges w = (w', res) →
  let key := URI.toString uri in
  onDisposeListeners (editors w' (editor widget)) =
    onDisposeListeners (editors w (editor widget)) ++
      match toDisposeOnEditorClose (service w) !! key with
      | None => [DeleteDecorations key (editor widget)]
      | Some _ => []
      end ∧
  is_Some (toDisposeOnEditorClose (service w') !! key).
Proof.
  intros Hw Hm Hd key.
  rewrite (decorate_found _ _ _ _ Hw Hm) in Hd. cbn zeta in Hd. fold key in Hd.
  set (w1 := registered key (editor widget) w) in *.
  assert (Hreg : onDisposeListeners (editors w1 (editor widget)) =
            onDisposeListeners (editors w (editor widget)) ++
              match toDisposeOnEditorClose (service w) !! key with
              | None => [DeleteDecorations key (editor widget)]
              | Some _ => []
              end ∧
            is_Some (toDisposeOnEditorClose (service w1) !! key)).
  { unfold w1, registered. case_bool_decide as Hhas.
    - destruct Hhas as [d Hd']. rewrite Hd'. by rewrite app_nil_r.
    - apply eq_None_not_Some in Hhas. rewrite Hhas. cbn.
      rewrite fn_lookup_insert, lookup_insert_eq. by split. }
  destruct (editor_deltaDecorations_spec (editor widget)
              (decorateParams (default DecorationWithRanges.EMPTY
                 (decorations (service w1) !! key)) ranges) w1)
    as (m' & called & _ & Hstep).
  unfold mbind, M_bind in Hd. rewrite Hstep in Hd.
  destruct called as [ids|e]; cbn in Hd; injection Hd as <- <-; cbn;
    rewrite fn_lookup_insert; done.
Qed.

(** C7: on a URI with a cached state, the one [deltaDecorations] call of
    [decorate] passes exactly the cached ids as [oldDecorations]; and
    [deleteDecorations], which the close of the editor runs through the
    listener that [decorate] registered, makes one call with all the cached
    ids and no new decoration, and deletes the cache entry of the URI once
    that call has returned. *)
Theorem cached_ids_are_the_old_decorations
    (w wd wc : World E) uri ranges widget old resd resc :
  getByUri w uri = Some widget →
  isMonacoEditor (editors w (editor widget)) = true →
  decorations (service w) !! URI.toString uri = Some old →
  decorate uri ranges w = (wd, resd) →
  deleteDecorations (URI.toString uri) (editor widget) w = (wc, resc) →
  (∃ params,
     calls (editors wd (editor widget)) = calls (editors w (editor widget)) ++ [params] ∧
     oldDecorations params = DecorationWithRanges.decorations old) ∧
  calls (editors wc (editor widget)) =
    calls (editors w (editor widget)) ++
      [{| uri := None;
          oldDecorations := DecorationWithRanges.decorations old;
          newDecorations := [] |}] ∧
  (resc = Returned tt → decorations (service wc) !! URI.toString uri = None) ∧
  (onDisposeListeners (editors w (editor widget)) =
     [DeleteDecorations (URI.toString uri) (editor widget)] →
   closeEditor (editor widget) w = (wc, Returned tt)).
Proof.
  intros Hw Hm Hold Hd Hc. split; [|split; [|split]].
  - destruct (decorate_found_outcome _ _ _ _ _ _ Hw Hm Hd) as (m' & called & _ & Hcalls & _).
    eexists. split; [exact Hcalls|]. cbn. by rewrite Hold.
  - by destruct (deleteDecorations_cached _ _ _ _ _ _ Hold Hc) as [Hcalls _].
  - intros ->. destruct (deleteDecorations_cached _ _ _ _ _ _ Hold Hc) as (_ & _ & Hres).
    destruct (deltaDecorations _ _).2; destruct Hres as [Hr Hdec]; [|discriminate].
    by rewrite Hdec, lookup_delete_eq.
  - intros Hl. rewrite (closeEditor_one_listener _ _ _ _ Hl). by rewrite Hc.
Qed.

(** The ids that a [decorate] call gets back are the [oldDecorations] of the
    next call for the URI. *)
Lemma decorate_passes_ids_of_previous_call (w w1 w2 : World E) uri ranges1 ranges2 widget res :
  getByUri w uri = Some widget →
  isMonacoEditor (editors w (editor widget)) = true →
  getByUri w1 uri = Some widget →
  isMonacoEditor (editors w1 (editor widget)) = true →
  decorate uri ranges1 w = (w1, Returned tt) →
  decorate uri ranges2 w1 = (w2, res) →
  ∃ params1 params2 ids,
    calls (editors w2 (editor widget)) =
      calls (editors w (editor widget)) ++ [params1; params2] ∧
    (deltaDecorations (model (editors w (editor widget))) params1).2 = Returned ids ∧
    oldDecorations params2 = ids.
Proof.
  intros Hw Hm Hw1 Hm1 Hd1 Hd2.
  destruct (decorate_call_and_cached_ids _ _ _ _ _ Hw Hm Hd1)
    as (params1 & ids & Hcalls1 & Hcall1 & Hids).
  destruct (decorate_found_outcome _ _ _ _ _ _ Hw1 Hm1 Hd2)
    as (m' & called & _ & Hcalls2 & _).
  eexists params1, _, ids. split; [|split].
  - rewrite Hcalls2, Hcalls1, <- app_assoc. reflexivity.
  - by rewrite Hcall1.
  - cbn. destruct (decorations (service w1) !! URI.toString uri); by simplify_eq/=.
Qed.

(** Merging the same new ranges a second time changes nothing: every new
    range starts on an affected line, and the old ranges that were kept are
    kept again. *)
Lemma rangesToCache_twice (oldState : DecorationWithRanges.t)
    (ranges : list SemanticHighlightingRange) (ids : list string) :
  rangesToCache
    {| DecorationWithRanges.decorations := ids;
       DecorationWithRanges.ranges := rangesToCache oldState ranges |} ranges =
  rangesToCache oldState ranges.
Proof.
  unfold rangesToCache. cbn.
  rewrite filter_app, filter_affected_nil, app_nil_r.
  f_equal. induction (DecorationWithRanges.ranges oldState) as [|r l IH]; [done|].
  rewrite !filter_cons. case_decide as Hr.
  - rewrite filter_cons. case_decide; [|done]. by rewrite IH.
  - exact IH.
Qed.

(** C9: the merge of [decorate] is idempotent: merging the same new ranges
    into the state that the merge has produced gives the same ranges. *)
Theorem rangesToCache_idempotent (oldState : DecorationWithRanges.t)
    (ranges : list SemanticHighlightingRange) (ids : list string) :
  rangesToCache
    {| DecorationWithRanges.decorations := ids;
       DecorationWithRanges.ranges := rangesToCache oldState ranges |} ranges =
  rangesToCache oldState ranges.
Proof. apply rangesToCache_twice. Qed.

(** So two completed [decorate] calls with the same ranges cache the ranges
    of the first. *)
Lemma decorate_twice_caches_the_same_ranges (w w1 w2 : World E) uri ranges widget :
  getByUri w uri = Some widget →
  isMonacoEditor (editors w (editor widget)) = true →
  getByUri w1 uri = Some widget →
  isMonacoEditor (editors w1 (editor widget)) = true →
  decorate uri ranges w = (w1, Returned tt) →
  decorate uri ranges w1 = (w2, Returned tt) →
  DecorationWithRanges.ranges <$> decorations (service w2) !! URI.toString uri =
  DecorationWithRanges.ranges <$> decorations (service w1) !! URI.toString uri.
Proof.
  intros Hw Hm Hw1 Hm1 Hd1 Hd2.
  destruct (decorate_found_outcome _ _ _ _ _ _ Hw Hm Hd1) as (? & c1 & _ & _ & _ & Hres1).
  destruct (decorate_found_outcome _ _ _ _ _ _ Hw1 Hm1 Hd2) as (? & c2 & _ & _ & _ & Hres2).
  destruct c1 as [ids1|]; destruct Hres1 as [Hr1 Hdec1]; [|discriminate].
  destruct c2 as [ids2|]; destruct Hres2 as [Hr2 Hdec2]; [|discriminate].
  rewrite Hdec2, lookup_insert_eq. rewrite Hdec1, !lookup_insert_eq. cbn.
  f_equal. exact (rangesToCache_twice _ ranges ids1).
Qed.

End HighlightingProperties.

(** * The statements on the session *)
Section HighlightingSessionChecks.

Import Highlighting HighlightingSession.

Lemma decorate_caches_merged_ranges_witness :
  DecorationWithRanges.ranges <$> decorations (service world2) !! URI.toString uriA =
    Some (filter (λ r, Forall (λ new, line (start r) ≠ line (start new)) ranges2)
                 (DecorationWithRanges.ranges cached1) ++ ranges2).
Proof.
  apply (decorate_caches_merged_ranges theme_match getClassNameFromMetadata
           world1 world2 uriA ranges2 {| editor := 0%nat |} cached1);
    vm_compute; reflexivity.
Defined.

Lemma decorate_cache_mirrors_applied_ids_witness :
  ∃ params ids,
    calls (editors world2 0%nat) = calls (editors world1 0%nat) ++ [params] ∧
    deltaDecorations (model (editors world1 0%nat)) params =
      (model (editors world2 0%nat), Returned ids) ∧
    DecorationWithRanges.decorations <$> decorations (service world2) !! URI.toString uriA =
      Some ids.
Proof.
  apply (decorate_cache_mirrors_applied_ids theme_match getClassNameFromMetadata
           world1 world2 uriA ranges2 {| editor := 0%nat |});
    vm_compute; reflexivity.
Defined.

Lemma decorate_without_monaco_editor_is_noop_witness :
  decorate theme_match getClassNameFromMetadata uriC ranges1 world2 = (world2, Returned tt) ∧
  decorate theme_match getClassNameFromMetadata uriB ranges1 world2 = (world2, Returned tt).
Proof.
  split.
  - apply (decorate_without_monaco_editor_is_noop theme_match getClassNameFromMetadata
             world2 uriC ranges1).
    left. vm_compute. reflexivity.
  - apply (decorate_without_monaco_editor_is_noop theme_match getClassNameFromMetadata
             world2 uriB ranges1).
    right. exists {| editor := 1%nat |}. split; vm_compute; reflexivity.
Defined.

Lemma cached_ids_are_the_old_decorations_witness :
  (∃ params,
     calls (editors world2 0%nat) = calls (editors world1 0%nat) ++ [params] ∧
     oldDecorations params = DecorationWithRanges.decorations cached1) ∧
  calls (editors (run (closeEditor 0%nat) world1) 0%nat) =
    calls (editors world1 0%nat) ++
      [{| uri := None;
          oldDecorations := DecorationWithRanges.decorations cached1;
          newDecorations := [] |}] ∧
  (Returned tt = Returned tt →
   decorations (service (run (closeEditor 0%nat) world1)) !! URI.toString uriA = None) ∧
  (onDisposeListeners (editors world1 0%nat) = [DeleteDecorations (URI.toString uriA) 0%nat] →
   closeEditor 0%nat world1 = (run (closeEditor 0%nat) world1, Returned tt)).
Proof.
  apply (cached_ids_are_the_old_decorations theme_match getClassNameFromMetadata
           world1 world2 (run (closeEditor 0%nat) world1) uriA ranges2
           {| editor := 0%nat |} cached1 (Returned tt) (Returned tt));
    vm_compute; reflexivity.
Defined.

(** C4: the decoration of a range is attached to exactly the text span of the
    range.  The code does not do so: for the range of line 3, columns 0 to 5,
    the decoration spans columns 2 to 7 of that line. *)
Theorem toDecoration_moves_the_span :
  range (toDecoration theme_match getClassNameFromMetadata (span 3 0 5 "keyword")) =
    Range.create {| line := 3; character := 2 |} {| line := 3; character := 7 |} ∧
  Range.start (range (toDecoration theme_match getClassNameFromMetadata (span 3 0 5 "keyword")))
    ≠ start (span 3 0 5 "keyword") ∧
  Range.end_ (range (toDecoration theme_match getClassNameFromMetadata (span 3 0 5 "keyword")))
    ≠ end_ (span 3 0 5 "keyword").
Proof. repeat split; cbn; discriminate. Qed.

(** The session's second call merges by start line: the two old ranges of
    line 2 are dropped, the one of line 1 is kept. *)
Example session_merge :
  DecorationWithRanges.ranges <$> decorations (service world2) !! URI.toString uriA =
    Some [span 1 0 5 "keyword"; span 2 4 7 "variable"; span 5 0 6 "keyword"].
Proof. vm_compute. reflexivity. Qed.

(** The close listener is registered once per URI and never again, as the
    disposables map keeps the entry of the URI after the editor has closed.
    An editor in which the file is opened again gets no listener, and its
    close leaves the cache entry of the URI in place. *)
Example reopened_editor_is_not_cleaned_up :
  decorations (service world3) !! URI.toString uriA = None ∧
  is_Some (toDisposeOnEditorClose (service world3) !! URI.toString uriA) ∧
  onDisposeListeners (editors world4 2%nat) = [] ∧
  is_Some (decorations (service world4) !! URI.toString uriA) ∧
  decorations (service world5) = decorations (service world4).
Proof.
  split; [|split; [|split; [|split]]]; try (vm_compute; reflexivity);
    vm_compute; eexists; reflexivity.
Qed.

(** When the embedded editor throws, [decorate] throws: the listener is
    registered, the call is made and nothing is cached. *)
Example decorate_on_a_throwing_editor :
  let result := decorate theme_match getClassNameFromMetadata uriA ranges1 brokenWorld in
  result.2 = Thrown "disposed" ∧
  decorations (service result.1) = ∅ ∧
  onDisposeListeners (editors result.1 0%nat) = [DeleteDecorations "file:///a.ts" 0%nat] ∧
  length (calls (editors result.1 0%nat)) = 1%nat.
Proof. vm_compute. repeat split. Qed.

End HighlightingSessionChecks.

(** * Properties of the output view *)
Section OutputProperties.

Import Output OutputSpec.

(** A loop that pushes one element per item builds the mapped list. *)
Lemma fold_left_push {A B} (f : A → B) (g : list B → A → list B)
    (l : list A) (acc : list B) :
  (∀ acc x, g acc x = acc ++ [f x]) →
  fold_left g l acc = acc ++ map f l.
Proof.
  intros Hg. revert acc. induction l as [|x l IH]; intros acc; cbn.
  - by rewrite app_nil_r.
  - by rewrite IH, Hg, <- app_assoc.
Qed.

Lemma flatten_from (children : list Child) (acc : list VirtualNode) :
  fold_left (λ prev current,
    prev ++ match current with One node => [node] | Many nodes => nodes end)
    children acc =
  acc ++ concat (map (λ c, match c with One node => [node] | Many nodes => nodes end) children).
Proof.
  revert acc. induction children as [|c l IH]; intros acc; cbn.
  - by rewrite app_nil_r.
  - by rewrite IH, <- app_assoc.
Qed.

Lemma flatten_One (nodes : list VirtualNode) : flatten (map One nodes) = nodes.
Proof.
  unfold flatten. rewrite flatten_from. cbn.
  induction nodes as [|n l IH]; [done|]. cbn. by rewrite IH.
Qed.

Lemma flatten_Many (arrays : list (list VirtualNode)) :
  flatten (map Many arrays) = concat arrays.
Proof.
  unfold flatten. rewrite flatten_from. cbn. f_equal.
  induction arrays as [|n l IH]; [done|]. cbn. by rewrite IH.
Qed.

(** C8: the channel selector lists one option per visible channel, in the
    manager's order, the option of the selected channel carrying the
    [selected] attribute; with no visible channel it lists the single
    placeholder option [<no channels>]. *)
Theorem renderChannelSelector_lists_visible_channels (w : World) :
  let visible :=
    filter (λ c, isVisible (objects (store w) c) = true) (channels (store w)) in
  let optionOf (c : ref) :=
    let n := name (objects (store w) c) in
    VirtualElement "option"
      (attr "value" n ::
       if decide (selectedChannel (widget w) = Some c)
       then [attr "selected" "selected"] else [])
      [VirtualText n] in
  renderChannelSelector w =
    VirtualElement "select" [attr "id" "outputChannelList"; onchangeHandler]
      match visible with
      | [] => [VirtualElement "option" [attr "value" "<no channels>"]
                 [VirtualText "<no channels>"]]
      | _ :: _ => map optionOf visible
      end.
Proof.
  intros visible optionOf. unfold renderChannelSelector, h_select.
  fold visible. unfold getVisibleChannels. fold visible. f_equal.
  rewrite (fold_left_push (λ channel, One (optionOf channel))).
  - cbn [app]. destruct visible as [|c l].
    + reflexivity.
    + rewrite bool_decide_eq_false_2 by done.
      etrans; [|apply (flatten_One (map optionOf (c :: l)))].
      f_equal. symmetry. apply map_map.
  - intros acc c. f_equal. unfold optionOf, h_option, h_text. cbn zeta.
    case_bool_decide as Hsel; case_decide as Hsel'; try done; congruence.
Qed.

Lemma append_assoc (s t u : string) : (s +:+ t) +:+ u = s +:+ (t +:+ u).
Proof.
  induction s as [|c s IH]; [done|].
  change (String c ((s +:+ t) +:+ u) = String c (s +:+ (t +:+ u))). by rewrite IH.
Qed.

Lemma append_nil_r (s : string) : s +:+ "" = s.
Proof.
  induction s as [|c s IH]; [done|].
  change (String c (s +:+ "") = String c s). by rewrite IH.
Qed.

Lemma all_chars_snoc P (s : string) (c : ascii) :
  all_chars P s = true → P c = true → all_chars P (s +:+ String c "") = true.
Proof.
  intros Hs Hc. induction s as [|d s IH].
  - change (P c && true = true). by rewrite Hc.
  - change (all_chars P (String d (s +:+ String c "")) = true).
    cbn in Hs |- *. apply andb_true_iff in Hs as [Hd Hs]. by rewrite Hd, IH.
Qed.

Lemma snoc_not_empty (s : string) (c : ascii) : s +:+ String c "" ≠ "".
Proof. by destruct s. Qed.

(** The pieces of [split], put together again, are the text. *)
Lemma split_from_concat (inRun : bool) (piece text : string) :
  concat_pieces (split_from inRun piece text) = piece +:+ text.
Proof.
  unfold concat_pieces.
  revert inRun piece. induction text as [|c rest IH]; intros inRun piece.
  - destruct inRun; cbn; by rewrite ?append_nil_r.
  - cbn [split_from]. destruct (isLineBreak c), inRun; cbn [fold_right];
      rewrite IH; by rewrite ?append_assoc.
Qed.

(** They are segments and runs of line breaks in turn. *)
Lemma split_from_alternate (inRun : bool) (piece text : string) :
  (if inRun then is_run piece else is_segment piece) →
  alternate inRun (split_from inRun piece text).
Proof.
  revert inRun piece. induction text as [|c rest IH]; intros inRun piece Hp.
  - destruct inRun; cbn.
    + split; [exact Hp|]. split; [reflexivity|exact I].
    + split; [exact Hp|exact I].
  - cbn [split_from]. destruct (isLineBreak c) eqn:Hc, inRun; cbn [alternate negb].
    + apply IH. destruct Hp as [_ Hp]. split; [apply snoc_not_empty|].
      by apply all_chars_snoc.
    + split; [done|]. apply IH. split; [done|]. cbn. by rewrite Hc.
    + split; [done|]. apply IH. unfold is_segment. cbn. by rewrite Hc.
    + apply IH. apply all_chars_snoc; [done|]. by rewrite Hc.
Qed.

Lemma split_from_not_nil (inRun : bool) (piece text : string) :
  split_from inRun piece text ≠ [].
Proof.
  revert inRun piece. induction text as [|c rest IH]; intros inRun piece.
  - by destruct inRun.
  - cbn [split_from]. destruct (isLineBreak c), inRun; try done; apply IH.
Qed.

Lemma removelast_cons {A} (x : A) (l : list A) :
  l ≠ [] → removelast (x :: l) = x :: removelast l.
Proof. by destruct l. Qed.

(** Once the piece being read is not empty, only the last piece of the result
    can be empty. *)
Lemma split_from_inner (inRun : bool) (piece text : string) :
  piece ≠ "" →
  Forall (λ p, p ≠ "") (removelast (split_from inRun piece text)).
Proof.
  revert inRun piece. induction text as [|c rest IH]; intros inRun piece Hp.
  - destruct inRun; cbn; auto.
  - cbn [split_from]. destruct (isLineBreak c), inRun;
      rewrite ?removelast_cons by apply split_from_not_nil;
      repeat (apply Forall_cons; split; [done|]);
      apply IH; first [apply snoc_not_empty | done].
Qed.

(** So no piece of [split] other than the first and the last is empty: the
    runs of line breaks are maximal. *)
Lemma split_inner_not_empty (text : string) :
  Forall (λ p, p ≠ "") (removelast (tail (split text))).
Proof.
  unfold split. destruct text as [|c rest]; [by cbn|].
  cbn [split_from]. destruct (isLineBreak c).
  - cbn [tail]. by apply split_from_inner.
  - pose proof (split_from_inner false ("" +:+ String c "") rest) as Hin.
    destruct (split_from false ("" +:+ String c "") rest) as [|p l]; [by cbn|].
    cbn [tail]. destruct l as [|q l]; [by cbn|].
    rewrite removelast_cons in Hin by done.
    apply Forall_cons in Hin; [|done]. apply Hin.
Qed.

(** [toHtmlText] makes one div per piece of [split], or the placeholder. *)
Lemma toHtmlText_pieces (text : string) :
  toHtmlText text =
    if decide (text = "") then [VirtualElement "div" [] [VirtualText "<no output yet>"]]
    else map (λ piece, VirtualElement "div" [] [VirtualText piece]) (split text).
Proof.
  unfold toHtmlText. case_bool_decide; case_decide; try done.
  by rewrite (fold_left_push (h_text "div" [])).
Qed.

(** C6 (amended): the contents pane of a selected channel holds, for each
    line of the channel in order, one div per piece of the line, the pieces
    being the segments between the runs of line breaks and these runs
    themselves, in the order of the text, and the single div [<no output yet>]
    for an empty line; with no selected channel the pane is empty. *)
Theorem renderChannelContents_renders_pieces (w : World) :
  renderChannelContents w =
    VirtualElement "div" [attr "id" "outputContents"]
      match selectedChannel (widget w) with
      | Some c =>
          concat (map (λ text,
            if decide (text = "")
            then [VirtualElement "div" [] [VirtualText "<no output yet>"]]
            else map (λ piece, VirtualElement "div" [] [VirtualText piece]) (split text))
            (lines (objects (store w) c)))
      | None => []
      end ∧
  ∀ text : string,
    concat_pieces (split text) = text ∧
    alternate false (split text) ∧
    Forall (λ piece, piece ≠ "") (removelast (tail (split text))).
Proof.
  split.
  - unfold renderChannelContents, h_div. destruct (selectedChannel (widget w)) as [c|]; [|done].
    f_equal. rewrite <- (map_map toHtmlText Many), flatten_Many. f_equal.
    apply map_ext. intros text. apply toHtmlText_pieces.
  - intros text. split; [|split].
    + apply (split_from_concat false "" text).
    + by apply split_from_alternate.
    + apply split_inner_not_empty.
Qed.

(** The first element of the visible channels is the first visible channel. *)
Lemma head_visible_first_visible (w : World) :
  first_visible (store w) (getVisibleChannels w !! 0%nat).
Proof.
  unfold getVisibleChannels, first_visible.
  induction (channels (store w)) as [|c l IH]; [by cbn|].
  rewrite filter_cons. case_decide as Hc.
  - cbn. exists [], l. by repeat split.
  - apply not_true_is_false in Hc.
    destruct (filter _ l !! 0%nat) as [c'|].
    + destruct IH as (before & after & -> & Hv & Hb).
      exists (c :: before), after. repeat split; [done|]. by apply Forall_cons.
    + by apply Forall_cons.
Qed.

(** C10: when the selected channel is deleted or becomes invisible, the
    selected channel becomes the first visible channel in the manager's
    order, or [undefined] when no channel is visible; when another channel is
    deleted or hidden the selection stays. *)
Theorem selection_follows_deleted_or_hidden_channel (w : World) (selected : ref) :
  selectedChannel (widget w) = Some selected →
  first_visible (store w)
    (selectedChannel (widget
       (onChannelDelete (name (objects (store w) selected)) w))) ∧
  first_visible (store w)
    (selectedChannel (widget (onVisibilityChange selected false w))) ∧
  (∀ channelName, channelName ≠ name (objects (store w) selected) →
     selectedChannel (widget (onChannelDelete channelName w)) = Some selected) ∧
  (∀ other, other ≠ selected →
     selectedChannel (widget (onVisibilityChange other false w)) = Some selected).
Proof.
  intros Hsel. repeat split.
  - unfold onChannelDelete. rewrite Hsel. rewrite bool_decide_eq_true_2 by done.
    cbn. apply head_visible_first_visible.
  - unfold onVisibilityChange. rewrite Hsel. rewrite bool_decide_eq_true_2 by done.
    cbn. apply head_visible_first_visible.
  - intros channelName Hne. unfold onChannelDelete. rewrite Hsel.
    rewrite bool_decide_eq_false_2 by done. done.
  - intros other Hne. unfold onVisibilityChange. rewrite Hsel.
    rewrite bool_decide_eq_false_2 by congruence. done.
Qed.

(** The selection stays as well when no channel is selected. *)
Lemma no_selection_stays (w : World) (channelName : string) (other : ref) :
  selectedChannel (widget w) = None →
  selectedChannel (widget (onChannelDelete channelName w)) = None ∧
  selectedChannel (widget (onVisibilityChange other false w)) = None.
Proof.
  intros Hsel. unfold onChannelDelete, onVisibilityChange. rewrite Hsel.
  by rewrite bool_decide_eq_false_2.
Qed.

(** C5 (amended): the change handler of the channel selector does nothing
    when the selected value is the placeholder [<no channels>]; for any other
    value, whether a channel has that name or not, the selected channel
    becomes what the manager's [getChannel] yields and an update is
    requested. *)
Theorem onchange_is_noop_on_the_placeholder_only
    (getChannel : Store → string → option ref * Store)
    (w : World) (channelName : string) (channel : option ref) (store' : Store) :
  channelName ≠ "<no channels>" →
  getChannel (store w) channelName = (channel, store') →
  onchange getChannel "<no channels>" w = w ∧
  selectedChannel (widget (onchange getChannel channelName w)) = channel ∧
  updateRequested (widget (onchange getChannel channelName w)) = true ∧
  store (onchange getChannel channelName w) = store'.
Proof.
  intros Hne Hget. split.
  - unfold onchange. by rewrite bool_decide_eq_false_2 by (intros H; by apply H).
  - unfold onchange. rewrite bool_decide_eq_true_2 by done. by rewrite Hget.
Qed.

(** Whatever [getChannel] does, a value other than the placeholder is not a
    silent no-op: an update is requested, and the selection is the one that
    [getChannel] yields, not the one the widget had. *)
Lemma onchange_changes_some_selection
    (getChannel : Store → string → option ref * Store)
    (st : Store) (channelName : string) (o : OutputWidget) :
  channelName ≠ NONE →
  ∃ selected : option ref,
    let w := {| store := st;
                widget := {| selectedChannel := selected; toDispose := toDispose o;
                             updateRequested := updateRequested o; dom := dom o |} |} in
    selectedChannel (widget (onchange getChannel channelName w)) ≠ selected ∧
    updateRequested (widget (onchange getChannel channelName w)) = true.
Proof.
  intros Hne.
  exists (match (getChannel st channelName).1 with Some _ => None | None => Some 0%nat end).
  unfold onchange. rewrite bool_decide_eq_true_2 by done. cbn [store].
  destruct (getChannel st channelName) as [[c|] st']; cbn; split; done.
Qed.

(** [init] registers the listeners of every channel of the manager, selects
    the first of them when nothing is selected, visible or not, and requests
    an update. *)
Lemma registerListener_keeps_selection (c : ref) (w : World) :
  selectedChannel (widget (registerListener c w)) =
    Some (default c (selectedChannel (widget w))).
Proof. unfold registerListener. by destruct (selectedChannel (widget w)) eqn:Hsel. Qed.

Lemma init_selects_first_channel (w : World) :
  selectedChannel (widget w) = None →
  selectedChannel (widget (init w)) = channels (store (init w)) !! 0%nat ∧
  updateRequested (widget (init w)) = true.
Proof.
  intros Hsel. unfold init. cbn. split; [|done].
  assert (Hstore : ∀ l w0, store (fold_left (λ w c, registerListener c w) l w0) = store w0).
  { induction l as [|c l IH]; intros w0; [done|]. cbn. rewrite IH.
    unfold registerListener. by destruct (selectedChannel (widget w0)). }
  rewrite Hstore.
  assert (Hfold : ∀ l w0 c0, selectedChannel (widget w0) = Some c0 →
            selectedChannel (widget (fold_left (λ w c, registerListener c w) l w0)) = Some c0).
  { induction l as [|c l IH]; intros w0 c0 H0; [done|]. cbn. apply IH.
    by rewrite registerListener_keeps_selection, H0. }
  destruct (channels (store w)) as [|c l]; [done|]. cbn.
  apply Hfold. by rewrite registerListener_keeps_selection, Hsel.
Qed.

End OutputProperties.

(** * The statements on the output session *)
Section OutputSessionChecks.

Import Output OutputSpec OutputSession.

Local Abbreviation div_of text := (VirtualElement "div" [] [VirtualText text]).

(** C6, as stated, fails on the line [a], line break, [b] of the selected
    channel: the pane holds three divs, the run of line breaks being one of
    them, where the spec's words give two. *)
Lemma contents_keep_the_line_break_runs :
  selectedChannel (widget world2) = Some 2%nat ∧
  lines (objects (store world2) 2%nat) = ["a" +:+ LF +:+ "b"] ∧
  renderChannelContents world2 =
    VirtualElement "div" [attr "id" "outputContents"] [div_of "a"; div_of LF; div_of "b"] ∧
  spec_renderChannelContents world2 =
    VirtualElement "div" [attr "id" "outputContents"] [div_of "a"; div_of "b"] ∧
  renderChannelContents world2 ≠ spec_renderChannelContents world2.
Proof. repeat split; try reflexivity. vm_compute. discriminate. Qed.

(** C5, as stated, fails on a name that no channel has: with a [getChannel]
    that yields [undefined] for it, the selection is lost and the next
    rendering differs. *)
Lemma onchange_unknown_channel_clears_selection :
  Forall (λ c, name (objects (store world1) c) ≠ "stderr") (channels (store world1)) ∧
  selectedChannel (widget world1) = Some 0%nat ∧
  selectedChannel (widget (onchange lookupChannel "stderr" world1)) = None ∧
  onchange lookupChannel "stderr" world1 ≠ world1 ∧
  dom (widget (onUpdateRequest (onchange lookupChannel "stderr" world1))) ≠
    dom (widget world1).
Proof.
  split; [|split; [|split; [|split]]]; try reflexivity.
  - repeat (apply Forall_cons; split; [cbn; discriminate|]). apply Forall_nil_2.
  - intros Heq. apply (f_equal (λ w, selectedChannel (widget w))) in Heq. discriminate.
  - vm_compute. discriminate.
Qed.

Lemma onchange_is_noop_on_the_placeholder_only_witness :
  onchange lookupChannel "<no channels>" world1 = world1 ∧
  selectedChannel (widget (onchange lookupChannel "log" world1)) = Some 2%nat ∧
  updateRequested (widget (onchange lookupChannel "log" world1)) = true ∧
  store (onchange lookupChannel "log" world1) = store0.
Proof.
  apply (onchange_is_noop_on_the_placeholder_only lookupChannel world1 "log" (Some 2%nat) store0).
  - discriminate.
  - reflexivity.
Defined.

Lemma selection_follows_deleted_or_hidden_channel_witness :
  first_visible (store world3)
    (selectedChannel (widget
       (onChannelDelete (name (objects (store world3) 0%nat)) world3))) ∧
  first_visible (store world3)
    (selectedChannel (widget (onVisibilityChange 0%nat false world3))) ∧
  (∀ channelName, channelName ≠ name (objects (store world3) 0%nat) →
     selectedChannel (widget (onChannelDelete channelName world3)) = Some 0%nat) ∧
  (∀ other, other ≠ 0%nat →
     selectedChannel (widget (onVisibilityChange other false world3)) = Some 0%nat).
Proof.
  apply (selection_follows_deleted_or_hidden_channel world3 0%nat). reflexivity.
Defined.

(** In that world the selection moves to the third channel, the second being
    hidden as well. *)
Example hidden_selection_moves_to_log :
  selectedChannel (widget (onVisibilityChange 0%nat false world3)) = Some 2%nat ∧
  selectedChannel (widget (onChannelDelete "stdout" world3)) = Some 2%nat.
Proof. split; reflexivity. Qed.

End OutputSessionChecks.

(** * More of the semantic highlighting service *)
Section HighlightingCoverage.

Import Highlighting HighlightingSpec.

Context {E : Type} `{!TextEditor E}.
Variable theme_match : string → Z.
Variable getClassNameFromMetadata : Z → string.

Local Abbreviation decorate := (Highlighting.decorate theme_match getClassNameFromMetadata).
Local Abbreviation decorateParams :=
  (Highlighting.decorateParams theme_match getClassNameFromMetadata).
Local Abbreviation toDecoration :=
  (Highlighting.toDecoration theme_match getClassNameFromMetadata).

(** The world that [decorate] leaves with a Monaco editor found, written
    out: the registration, the call on the editor, and, when the call has
    returned, the new cache entry. *)
Lemma decorate_found_world (w w' : World E) uri ranges widget res :
  getByUri w uri = Some widget →
  isMonacoEditor (editors w (editor widget)) = true →
  decorate uri ranges w = (w', res) →
  let key := URI.toString uri in
  let w1 := registered key (editor widget) w in
  let oldState := default DecorationWithRanges.EMPTY (decorations (service w) !! key) in
  let params := decorateParams oldState ranges in
  let called := deltaDecorations (model (editors w (editor widget))) params in
  let w2 := set_editor (editor widget) (λ o,
              {| isMonacoEditor := isMonacoEditor o; model := called.1;
                 onDisposeListeners := onDisposeListeners o;
                 calls := calls o ++ [params] |}) w1 in
  match called.2 with
  | Returned ids =>
      res = Returned tt ∧
      w' = set_service (λ s,
             {| toDisposeOnEditorClose := toDisposeOnEditorClose s;
                decorations :=
                  <[key := {| DecorationWithRanges.ranges := rangesToCache oldState ranges;
                              DecorationWithRanges.decorations := ids |}]> (decorations s);
                colorMapCache := colorMapCache s |}) w2
  | Thrown e => res = Thrown e ∧ w' = w2
  end.
Proof.
  intros Hw Hm Hd key w1 oldState params called w2.
  rewrite (decorate_found _ _ _ _ _ _ Hw Hm) in Hd. cbn zeta in Hd.
  rewrite registered_decorations in Hd. fold key oldState params in Hd.
  unfold mbind, M_bind, editor_deltaDecorations in Hd.
  rewrite registered_model in Hd. fold called in Hd. fold w1 in Hd.
  destruct called as [m' [ids|e]] eqn:Hcalled; cbn in Hd |- *;
    injection Hd as <- <-; done.
Qed.

(** Without a Monaco editor for the URI nothing happens. *)
Lemma decorate_noop (w : World E) uri ranges :
  (getByUri w uri = None ∨
   ∃ widget, getByUri w uri = Some widget ∧
             isMonacoEditor (editors w (editor widget)) = false) →
  decorate uri ranges w = (w, Returned tt).
Proof.
  intros [Hnone | (widget & Hw & Hm)]; unfold Highlighting.decorate;
    unfold mbind, M_bind, gets at 1.
  - by rewrite Hnone.
  - rewrite Hw. unfold gets at 1. by rewrite Hm.
Qed.

Lemma registered_getByUri key r (w : World E) :
  getByUri (registered key r w) = getByUri w.
Proof. unfold registered. by case_bool_decide. Qed.

Lemma registered_other_editor key r r' (w : World E) :
  r' ≠ r → editors (registered key r w) r' = editors w r'.
Proof.
  intros Hne. unfold registered. case_bool_decide; [done|]. cbn.
  by rewrite fn_lookup_insert_ne.
Qed.

Lemma registered_other_key key key' r (w : World E) :
  key' ≠ key →
  toDisposeOnEditorClose (service (registered key r w)) !! key' =
    toDisposeOnEditorClose (service w) !! key'.
Proof.
  intros Hne. unfold registered. case_bool_decide; [done|]. cbn.
  by rewrite lookup_insert_ne.
Qed.

Lemma registered_colorMapCache key r (w : World E) :
  colorMapCache (service (registered key r w)) = colorMapCache (service w).
Proof. unfold registered. by case_bool_decide. Qed.

(** The frame of [decorate]. *)
Lemma decorate_frame (w w' : World E) uri ranges res :
  decorate uri ranges w = (w', res) →
  getByUri w' = getByUri w ∧
  colorMapCache (service w') = colorMapCache (service w) ∧
  (∀ key', key' ≠ URI.toString uri →
     decorations (service w') !! key' = decorations (service w) !! key' ∧
     toDisposeOnEditorClose (service w') !! key' =
       toDisposeOnEditorClose (service w) !! key') ∧
  (∀ r, getByUri w uri ≠ Some {| editor := r |} → editors w' r = editors w r).
Proof.
  intros Hd.
  destruct (getByUri w uri) as [widget|] eqn:Hw; cycle 1.
  { rewrite decorate_noop in Hd by (by left). by injection Hd as <- <-. }
  destruct (isMonacoEditor (editors w (editor widget))) eqn:Hm; cycle 1.
  { rewrite decorate_noop in Hd by (right; eauto). by injection Hd as <- <-. }
  pose proof (decorate_found_world _ _ _ _ _ _ Hw Hm Hd) as Hout. cbn zeta in Hout.
  assert (Hother : ∀ r, Some widget ≠ Some {| editor := r |} → r ≠ editor widget).
  { intros r Hne ->. apply Hne. by destruct widget. }
  destruct (deltaDecorations _ _).2; destruct Hout as [_ ->]; cbn;
    rewrite registered_getByUri, registered_colorMapCache;
    (split; [done|]); (split; [done|]); (split;
      [intros key' Hne; rewrite ?lookup_insert_ne by done;
       rewrite registered_decorations, registered_other_key by done; done
      |intros r Hne; apply Hother in Hne;
       rewrite fn_lookup_insert_ne by done; by apply registered_other_editor]).
Qed.

(** X1: whatever its outcome, a [decorate] call leaves the editor manager,
    the colour cache, the cache and disposables entries of every other URI,
    and every editor other than the one found for its URI, as they were. *)
Theorem decorate_touches_one_uri_and_one_editor (w w' : World E) uri ranges res :
  decorate uri ranges w = (w', res) →
  getByUri w' = getByUri w ∧
  colorMapCache (service w') = colorMapCache (service w) ∧
  (∀ key', key' ≠ URI.toString uri →
     decorations (service w') !! key' = decorations (service w) !! key' ∧
     toDisposeOnEditorClose (service w') !! key' =
       toDisposeOnEditorClose (service w) !! key') ∧
  (∀ r, getByUri w uri ≠ Some {| editor := r |} → editors w' r = editors w r).
Proof. apply decorate_frame. Qed.

(** X2: [decorate] registers the close listener once per URI: a call for a
    URI without an entry in the disposables map adds one listener to the
    editor found, a call for a URI with an entry adds none; after the call the
    URI has an entry in either case. *)
Theorem decorate_registers_the_listener_once (w w' : World E) uri ranges widget res :
  getByUri w uri = Some widget →
  isMonacoEditor (editors w (editor widget)) = true →
  decorate uri ranges w = (w', res) →
  onDisposeListeners (editors w' (editor widget)) =
    onDisposeListeners (editors w (editor widget)) ++
      match toDisposeOnEditorClose (service w) !! URI.toString uri with
      | None => [DeleteDecorations (URI.toString uri) (editor widget)]
      | Some _ => []
      end ∧
  is_Some (toDisposeOnEditorClose (service w') !! URI.toString uri).
Proof. intros Hw Hm Hd. exact (decorate_registration _ _ _ _ _ _ _ _ Hw Hm Hd). Qed.

(** X3: when the editor's [deltaDecorations] throws, [decorate] throws the
    same error after the call was made: nothing is cached, but the URI has
    got its entry in the disposables map. *)
Theorem decorate_throws_when_the_editor_throws (w w' : World E) uri ranges widget res e :
  getByUri w uri = Some widget →
  isMonacoEditor (editors w (editor widget)) = true →
  (deltaDecorations (model (editors w (editor widget)))
     (decorateParams
        (default DecorationWithRanges.EMPTY (decorations (service w) !! URI.toString uri))
        ranges)).2 = Thrown e →
  decorate uri ranges w = (w', res) →
  res = Thrown e ∧
  decorations (service w') = decorations (service w) ∧
  is_Some (toDisposeOnEditorClose (service w') !! URI.toString uri) ∧
  length (calls (editors w' (editor widget))) =
    S (length (calls (editors w (editor widget)))).
Proof.
  intros Hw Hm Hthrow Hd.
  destruct (decorate_found_outcome _ _ _ _ _ _ _ _ Hw Hm Hd)
    as (m' & called & Hcall & Hcalls & _ & Hres).
  rewrite Hcall in Hthrow. cbn in Hthrow. subst called. destruct Hres as [-> Hdec].
  repeat split; try done.
  - by destruct (decorate_registration _ _ _ _ _ _ _ _ Hw Hm Hd).
  - rewrite Hcalls, length_app. cbn. lia.
Qed.

(** X4: the new decorations that a completed [decorate] has passed to the
    editor are the decorations of the ranges it has cached, one per range and
    in the order of the cache. *)
Theorem new_decorations_mirror_the_cached_ranges (w w' : World E) uri ranges widget :
  getByUri w uri = Some widget →
  isMonacoEditor (editors w (editor widget)) = true →
  decorate uri ranges w = (w', Returned tt) →
  ∃ params cached,
    calls (editors w' (editor widget)) = calls (editors w (editor widget)) ++ [params] ∧
    decorations (service w') !! URI.toString uri = Some cached ∧
    newDecorations params = map toDecoration (DecorationWithRanges.ranges cached) ∧
    length (newDecorations params) = length (DecorationWithRanges.ranges cached).
Proof.
  intros Hw Hm Hd.
  destruct (decorate_found_outcome _ _ _ _ _ _ _ _ Hw Hm Hd)
    as (m' & called & _ & Hcalls & _ & Hres).
  destruct called as [ids|e]; destruct Hres as [Hr Hdec]; [|discriminate].
  eexists _, _. split; [exact Hcalls|]. split; [by rewrite Hdec, lookup_insert_eq|].
  cbn. split; [done|]. by rewrite length_map.
Qed.

(** X5: of two [decorate] calls in a row for a URI, the second passes as
    [oldDecorations] exactly the ids that the editor returned to the first. *)
Theorem second_call_replaces_the_ids_of_the_first
    (w w1 w2 : World E) uri ranges1 ranges2 widget res :
  getByUri w uri = Some widget →
  isMonacoEditor (editors w (editor widget)) = true →
  getByUri w1 uri = Some widget →
  isMonacoEditor (editors w1 (editor widget)) = true →
  decorate uri ranges1 w = (w1, Returned tt) →
  decorate uri ranges2 w1 = (w2, res) →
  ∃ params1 params2 ids,
    calls (editors w2 (editor widget)) =
      calls (editors w (editor widget)) ++ [params1; params2] ∧
    (deltaDecorations (model (editors w (editor widget))) params1).2 = Returned ids ∧
    oldDecorations params2 = ids.
Proof.
  intros Hw Hm Hw1 Hm1 Hd1 Hd2.
  exact (decorate_passes_ids_of_previous_call _ _ _ _ _ _ _ _ _ _ Hw Hm Hw1 Hm1 Hd1 Hd2).
Qed.

(** X6: an empty list of ranges clears nothing: a completed [decorate] with
    no range keeps every cached range, and passes to the editor the
    decorations of all of them again, in place of the cached ids. *)
Theorem decorate_with_no_range_keeps_the_cache (w w' : World E) uri widget old :
  getByUri w uri = Some widget →
  isMonacoEditor (editors w (editor widget)) = true →
  decorations (service w) !! URI.toString uri = Some old →
  decorate uri [] w = (w', Returned tt) →
  DecorationWithRanges.ranges <$> decorations (service w') !! URI.toString uri =
    Some (DecorationWithRanges.ranges old) ∧
  ∃ params,
    calls (editors w' (editor widget)) = calls (editors w (editor widget)) ++ [params] ∧
    oldDecorations params = DecorationWithRanges.decorations old ∧
    newDecorations params = map toDecoration (DecorationWithRanges.ranges old).
Proof.
  intros Hw Hm Hold Hd.
  destruct (decorate_found_outcome _ _ _ _ _ _ _ _ Hw Hm Hd)
    as (m' & called & _ & Hcalls & _ & Hres).
  destruct called as [ids|e]; destruct Hres as [Hr Hdec]; [|discriminate].
  assert (Hkeep : rangesToCache old [] = DecorationWithRanges.ranges old).
  { unfold rangesToCache. rewrite app_nil_r.
    induction (DecorationWithRanges.ranges old) as [|r l IH]; [done|].
    rewrite filter_cons_True; [by rewrite IH|]. unfold affectedLines. cbn. set_solver. }
  rewrite Hold in Hdec, Hcalls. cbn in Hdec, Hcalls. split.
  - by rewrite Hdec, lookup_insert_eq, Hkeep.
  - eexists. split; [exact Hcalls|]. cbn. by rewrite Hkeep.
Qed.

(** A range passes the filter of a merge when its line is not affected. *)
Lemma filter_filter_affected (a b : list SemanticHighlightingRange)
    (l : list SemanticHighlightingRange) :
  filter (λ r, line (start r) ∉ affectedLines b)
    (filter (λ r, line (start r) ∉ affectedLines a) l) =
  filter (λ r, line (start r) ∉ affectedLines a ∪ affectedLines b) l.
Proof.
  rewrite list_filter_filter. apply list_filter_iff. intros r. set_solver.
Qed.

Lemma filter_unaffected_all (lines : gset Z) (l : list SemanticHighlightingRange) :
  Forall (λ r, line (start r) ∉ lines) l →
  filter (λ r, line (start r) ∉ lines) l = l.
Proof.
  induction 1 as [|r l Hr _ IH]; [done|]. by rewrite filter_cons_True, IH.
Qed.

Lemma filter_affected_all (lines : gset Z) (l : list SemanticHighlightingRange) :
  Forall (λ r, line (start r) ∈ lines) l →
  filter (λ r, line (start r) ∉ lines) l = [].
Proof.
  induction 1 as [|r l Hr _ IH]; [done|].
  rewrite filter_cons_False; [exact IH|]. intros Hn. by apply Hn.
Qed.

Lemma affectedLines_Forall (ranges : list SemanticHighlightingRange) :
  Forall (λ r, line (start r) ∈ affectedLines ranges) ranges.
Proof.
  apply Forall_forall. intros r Hin. unfold affectedLines.
  apply elem_of_list_to_set, list_elem_of_In, in_map_iff.
  exists r. split; [done|]. by apply list_elem_of_In.
Qed.

(** X7: a later update that affects every line of an earlier one erases it:
    merging [a] and then [b], where each start line of [a] is a start line of
    [b], caches what merging [b] alone caches. *)
Theorem later_update_covers_earlier_one (oldState : DecorationWithRanges.t)
    (a b : list SemanticHighlightingRange) (ids : list string) :
  affectedLines a ⊆ affectedLines b →
  rangesToCache
    {| DecorationWithRanges.decorations := ids;
       DecorationWithRanges.ranges := rangesToCache oldState a |} b =
  rangesToCache oldState b.
Proof.
  intros Hsub. unfold rangesToCache. cbn.
  rewrite filter_app, filter_filter_affected. f_equal.
  rewrite (filter_affected_all (affectedLines b) a).
  - rewrite app_nil_r. apply list_filter_iff. intros r. set_solver.
  - eapply Forall_impl; [apply affectedLines_Forall|]. intros r Hr. cbn. set_solver.
Qed.

(** X8: updates on disjoint sets of lines can be merged in either order: the
    cached ranges are the same up to their order in the list. *)
Theorem updates_of_disjoint_lines_commute (oldState : DecorationWithRanges.t)
    (a b : list SemanticHighlightingRange) (ids1 ids2 : list string) :
  affectedLines a ## affectedLines b →
  rangesToCache
    {| DecorationWithRanges.decorations := ids1;
       DecorationWithRanges.ranges := rangesToCache oldState a |} b ≡ₚ
  rangesToCache
    {| DecorationWithRanges.decorations := ids2;
       DecorationWithRanges.ranges := rangesToCache oldState b |} a.
Proof.
  intros Hdisj. unfold rangesToCache. cbn.
  rewrite !filter_app, !filter_filter_affected.
  rewrite (filter_unaffected_all (affectedLines b) a), (filter_unaffected_all (affectedLines a) b).
  - rewrite <- !app_assoc. apply Permutation_app.
    + erewrite list_filter_iff; [reflexivity|]. intros r. set_solver.
    + apply Permutation_app_comm.
  - eapply Forall_impl; [apply affectedLines_Forall|]. intros r Hr. cbn in *. set_solver.
  - eapply Forall_impl; [apply affectedLines_Forall|]. intros r Hr. cbn in *. set_solver.
Qed.

(** X9: a merge loses no line and adds none: the start lines of the ranges it
    caches are the start lines of the old ranges together with those of the
    new ones; and no old range that is kept starts on a line of a new one. *)
Theorem merged_lines_are_old_and_new_lines (oldState : DecorationWithRanges.t)
    (ranges : list SemanticHighlightingRange) :
  affectedLines (rangesToCache oldState ranges) =
    affectedLines (DecorationWithRanges.ranges oldState) ∪ affectedLines ranges ∧
  ∃ kept,
    rangesToCache oldState ranges = kept ++ ranges ∧
    kept `sublist_of` DecorationWithRanges.ranges oldState ∧
    affectedLines kept ## affectedLines ranges.
Proof.
  assert (Hin : ∀ (l : list SemanticHighlightingRange) (x : Z),
            x ∈ affectedLines l ↔ ∃ r, r ∈ l ∧ line (start r) = x).
  { intros l x. unfold affectedLines. rewrite elem_of_list_to_set, list_elem_of_In, in_map_iff.
    split; intros (r & H1 & H2); exists r; by rewrite ?list_elem_of_In in *. }
  split.
  - apply set_eq. intros x. rewrite elem_of_union, !Hin. unfold rangesToCache. split.
    + intros (r & Hr & <-). apply elem_of_app in Hr as [Hr|Hr].
      * apply list_elem_of_filter in Hr as [_ Hr]. left. eauto.
      * right. eauto.
    + intros [(r & Hr & <-)|(r & Hr & <-)].
      * destruct (decide (line (start r) ∈ affectedLines ranges)) as [Ha|Hn].
        -- apply Hin in Ha as (r' & Hr' & Heq). exists r'. split; [|done].
           apply elem_of_app. by right.
        -- exists r. split; [|done]. apply elem_of_app. left.
           by apply list_elem_of_filter.
      * exists r. split; [|done]. apply elem_of_app. by right.
  - eexists. split; [reflexivity|]. split; [apply sublist_filter|].
    intros x Hk Hr. apply Hin in Hk as (r & Hk & <-).
    by apply list_elem_of_filter in Hk as [Hn _].
Qed.

(** The world that [deleteDecorations] leaves, written out. *)
Lemma deleteDecorations_world (w : World E) key r :
  deleteDecorations key r w =
    match decorations (service w) !! key with
    | None => (w, Returned tt)
    | Some old =>
        let params := {| uri := None;
                         oldDecorations := DecorationWithRanges.decorations old;
                         newDecorations := [] |} in
        let called := deltaDecorations (model (editors w r)) params in
        let w2 := set_editor r (λ o,
                    {| isMonacoEditor := isMonacoEditor o; model := called.1;
                       onDisposeListeners := onDisposeListeners o;
                       calls := calls o ++ [params] |}) w in
        match called.2 with
        | Returned _ =>
            (set_service (λ s,
               {| toDisposeOnEditorClose := toDisposeOnEditorClose s;
                  decorations := delete key (decorations s);
                  colorMapCache := colorMapCache s |}) w2, Returned tt)
        | Thrown e => (w2, Thrown e)
        end
    end.
Proof.
  unfold deleteDecorations, mbind, M_bind, gets at 1.
  destruct (decorations (service w) !! key) as [old|]; [|done].
  unfold editor_deltaDecorations. cbn zeta.
  by destruct (deltaDecorations _ _) as [m' [ids|e]].
Qed.

(** X10: what [decorate] has cached for a URI, [deleteDecorations] takes
    back, and a second [deleteDecorations] finds nothing to do: after a
    [deleteDecorations] that has returned, the URI has no cache entry and a
    further call, for any editor, leaves the world as it is. *)
Theorem deleteDecorations_once_is_enough (w w1 : World E) key r r' :
  deleteDecorations key r w = (w1, Returned tt) →
  decorations (service w1) !! key = None ∧
  deleteDecorations key r' w1 = (w1, Returned tt).
Proof.
  intros Hd. rewrite deleteDecorations_world in Hd.
  assert (Hnone : decorations (service w1) !! key = None).
  { destruct (decorations (service w) !! key) as [old|] eqn:Hold.
    - cbn zeta in Hd. destruct (deltaDecorations _ _).2; [|discriminate].
      injection Hd as <-. cbn. apply lookup_delete_eq.
    - by injection Hd as <-. }
  split; [done|]. by rewrite deleteDecorations_world, Hnone.
Qed.

(** Closing an editor runs its listeners; none of them touches the editor
    manager or the disposables map, and the cache can only lose entries. *)
Lemma deleteDecorations_shrinks (w w' : World E) key r res :
  deleteDecorations key r w = (w', res) →
  getByUri w' = getByUri w ∧
  toDisposeOnEditorClose (service w') = toDisposeOnEditorClose (service w) ∧
  decorations (service w') ⊆ decorations (service w).
Proof.
  rewrite deleteDecorations_world. intros Hd.
  destruct (decorations (service w) !! key) as [old|].
  - cbn zeta in Hd. destruct (deltaDecorations _ _).2; injection Hd as <- <-; cbn;
      repeat split; try done. apply delete_subseteq.
  - by injection Hd as <- <-.
Qed.

Lemma closeEditor_shrinks (w w' : World E) r res :
  closeEditor r w = (w', res) →
  res = Returned tt ∧
  getByUri w' = getByUri w ∧
  toDisposeOnEditorClose (service w') = toDisposeOnEditorClose (service w) ∧
  decorations (service w') ⊆ decorations (service w).
Proof.
  unfold closeEditor, mbind, M_bind, gets at 1.
  generalize (onDisposeListeners (editors w r)). intros listeners.
  revert w w' res. induction listeners as [|[key r0] l IH]; intros w w' res Hc.
  - injection Hc as <- <-. by repeat split.
  - cbn in Hc. destruct (deleteDecorations key r0 w) as [w1 res1] eqn:Hd. cbn in Hc.
    apply deleteDecorations_shrinks in Hd as (Hg & Ht & Hs).
    apply IH in Hc as (-> & Hg' & Ht' & Hs').
    split; [done|]. split; [congruence|]. split; [congruence|]. by etrans.
Qed.

(** X11: a URI decorated for the first time, in an editor without
    listeners, is forgotten when that editor closes: the close makes one
    [deltaDecorations] call, with the ids that [decorate] cached and no new
    decoration, and once that call has returned the URI has no cache entry. *)
Theorem decorate_then_close_forgets_the_uri
    (w w1 w2 : World E) uri ranges widget res :
  getByUri w uri = Some widget →
  isMonacoEditor (editors w (editor widget)) = true →
  toDisposeOnEditorClose (service w) !! URI.toString uri = None →
  onDisposeListeners (editors w (editor widget)) = [] →
  decorate uri ranges w = (w1, Returned tt) →
  closeEditor (editor widget) w1 = (w2, res) →
  ∃ cached,
    decorations (service w1) !! URI.toString uri = Some cached ∧
    let params := {| uri := None;
                     oldDecorations := DecorationWithRanges.decorations cached;
                     newDecorations := [] |} in
    calls (editors w2 (editor widget)) = calls (editors w1 (editor widget)) ++ [params] ∧
    match (deltaDecorations (model (editors w1 (editor widget))) params).2 with
    | Returned _ => decorations (service w2) !! URI.toString uri = None
    | Thrown _ => decorations (service w2) = decorations (service w1)
    end.
Proof.
  intros Hw Hm Hnew Hl Hd Hc.
  destruct (decorate_registration _ _ _ _ _ _ _ _ Hw Hm Hd) as [Hl1 _].
  rewrite Hl, Hnew in Hl1. cbn in Hl1.
  rewrite (closeEditor_one_listener _ _ _ _ Hl1) in Hc.
  destruct (decorate_found_outcome _ _ _ _ _ _ _ _ Hw Hm Hd)
    as (m' & called & _ & _ & _ & Hres).
  destruct called as [ids|e]; destruct Hres as [Hr Hdec]; [|discriminate].
  eexists. split; [by rewrite Hdec, lookup_insert_eq|]. cbn zeta.
  destruct (deleteDecorations (URI.toString uri) (editor widget) w1) as [w2' res'] eqn:Hdel.
  injection Hc as <- <-.
  assert (Hold : decorations (service w1) !! URI.toString uri =
            Some {| DecorationWithRanges.ranges :=
                      rangesToCache (default DecorationWithRanges.EMPTY
                        (decorations (service w) !! URI.toString uri)) ranges;
                    DecorationWithRanges.decorations := ids |})
    by (by rewrite Hdec, lookup_insert_eq).
  destruct (deleteDecorations_cached _ _ _ _ _ _ Hold Hdel) as (Hcalls & _ & Hout).
  cbn in Hcalls, Hout |- *. split; [exact Hcalls|].
  destruct (deltaDecorations _ _).2; destruct Hout as [_ Hdec2]; [|done].
  by rewrite Hdec2, lookup_delete_eq.
Qed.

(** X12: the disposables entry of a URI outlives the editor: once a URI has
    an entry, a [decorate] call that finds the URI in an editor without
    listeners registers none, and the close of that editor changes nothing:
    what the call has cached stays cached. *)
Theorem known_uri_gets_no_close_listener (w w1 : World E) uri ranges widget :
  getByUri w uri = Some widget →
  isMonacoEditor (editors w (editor widget)) = true →
  is_Some (toDisposeOnEditorClose (service w) !! URI.toString uri) →
  onDisposeListeners (editors w (editor widget)) = [] →
  decorate uri ranges w = (w1, Returned tt) →
  onDisposeListeners (editors w1 (editor widget)) = [] ∧
  closeEditor (editor widget) w1 = (w1, Returned tt) ∧
  is_Some (decorations (service w1) !! URI.toString uri).
Proof.
  intros Hw Hm [d Hknown] Hl Hd.
  destruct (decorate_registration _ _ _ _ _ _ _ _ Hw Hm Hd) as [Hl1 _].
  rewrite Hl, Hknown in Hl1. cbn in Hl1. split; [done|]. split.
  - unfold closeEditor, mbind, M_bind, gets at 1. by rewrite Hl1.
  - destruct (decorate_found_outcome _ _ _ _ _ _ _ _ Hw Hm Hd)
      as (m' & called & _ & _ & _ & Hres).
    destruct called as [ids|e]; destruct Hres as [Hr Hdec]; [|discriminate].
    rewrite Hdec, lookup_insert_eq. eauto.
Qed.

(** X13: every URI with cached decorations has an entry in the disposables
    map, and [decorate], [deleteDecorations] and the close of an editor keep
    it so. *)
Theorem cached_uris_stay_registered (w w' : World E) :
  cached_uris_are_registered (service w) →
  (∀ uri ranges res, decorate uri ranges w = (w', res) →
     cached_uris_are_registered (service w')) ∧
  (∀ key r res, deleteDecorations key r w = (w', res) →
     cached_uris_are_registered (service w')) ∧
  (∀ r res, closeEditor r w = (w', res) →
     cached_uris_are_registered (service w')).
Proof.
  intros Hinv. unfold cached_uris_are_registered in *. split; [|split].
  - intros uri ranges res Hd key [c Hc].
    destruct (decide (key = URI.toString uri)) as [->|Hne].
    + destruct (getByUri w uri) as [widget|] eqn:Hw; cycle 1.
      { rewrite decorate_noop in Hd by (by left). injection Hd as <- <-. eauto. }
      destruct (isMonacoEditor (editors w (editor widget))) eqn:Hm; cycle 1.
      { rewrite decorate_noop in Hd by (right; eauto). injection Hd as <- <-. eauto. }
      by destruct (decorate_registration _ _ _ _ _ _ _ _ Hw Hm Hd).
    + destruct (decorate_frame _ _ _ _ _ Hd) as (_ & _ & Hkeys & _).
      destruct (Hkeys key Hne) as [Hk1 Hk2]. rewrite Hk2. apply Hinv. rewrite <- Hk1. eauto.
  - intros key r res Hd key' [c Hc].
    apply deleteDecorations_shrinks in Hd as (_ & -> & Hs).
    apply Hinv. exists c. by eapply lookup_weaken.
  - intros r res Hd key' [c Hc].
    apply closeEditor_shrinks in Hd as (_ & _ & -> & Hs).
    apply Hinv. exists c. by eapply lookup_weaken.
Qed.

(** X14: only the first scope of a range counts: two ranges whose lists of
    scopes begin with the same scope get the same options, and a range
    without scopes gets options without an inline class. *)
Theorem first_scope_decides_the_options (r r' : SemanticHighlightingRange) :
  head (scopes r) = head (scopes r') →
  options (toDecoration r) = options (toDecoration r') ∧
  (scopes r = [] → inlineClassName (options (toDecoration r)) = None) ∧
  (∀ scope rest, scopes r = scope :: rest →
     inlineClassName (options (toDecoration r)) =
       Some (getClassNameFromMetadata (theme_match scope))).
Proof.
  intros Hhead. cbn. split; [|split].
  - destruct (scopes r) as [|s l], (scopes r') as [|s' l']; cbn in *; congruence.
  - by intros ->.
  - by intros scope rest ->.
Qed.

End HighlightingCoverage.

(** * The colour strings *)
Section ColorProperties.

Import Colors.




End ColorProperties.

(** * More of the output view *)
Section OutputCoverage.

Import Output OutputSpec OutputReading.

Local Open Scope nat_scope.

(** X16: the divs of a line lose no character: the texts of the divs that
    [toHtmlText] makes of a non-empty line, put together, are the line; an
    empty line gives the one div of the placeholder. *)
Theorem toHtmlText_keeps_every_character (text : string) :
  text ≠ "" →
  concat_pieces (map textContent (toHtmlText text)) = text ∧
  toHtmlText "" = [VirtualElement "div" [] [VirtualText "<no output yet>"]].
Proof.
  intros Hne. split; [|done].
  rewrite toHtmlText_pieces. case_decide; [done|].
  rewrite map_map. cbn [textContent].
  rewrite (map_ext _ (λ piece, piece)) by (intros piece; apply append_nil_r).
  rewrite map_id. apply (split_from_concat false "" text).
Qed.

(** Without a line break there is one piece. *)
Lemma split_from_segment (piece text : string) :
  is_segment text → split_from false piece text = [piece +:+ text].
Proof.
  unfold is_segment. revert piece. induction text as [|c rest IH]; intros piece Hs.
  - cbn. by rewrite append_nil_r.
  - cbn in Hs. apply andb_true_iff in Hs as [Hc Hs]. apply negb_true_iff in Hc.
    cbn [split_from]. rewrite Hc, IH by done. by rewrite append_assoc.
Qed.

(** The number of pieces is odd, as segments and runs take turns and the
    last piece is a segment. *)
Lemma split_from_parity (inRun : bool) (piece text : string) :
  Nat.odd (length (split_from inRun piece text)) = negb inRun.
Proof.
  revert inRun piece. induction text as [|c rest IH]; intros inRun piece.
  - by destruct inRun.
  - cbn [split_from]. destruct (isLineBreak c), inRun; cbn [length];
      rewrite ?Nat.odd_succ, <- ?Nat.negb_odd, IH; done.
Qed.

Lemma split_from_break (inRun : bool) (piece text : string) :
  all_chars (λ c, negb (isLineBreak c)) text = false →
  (if inRun then 2 else 3) ≤ length (split_from inRun piece text).
Proof.
  revert inRun piece. induction text as [|c rest IH]; intros inRun piece Hb; [done|].
  cbn in Hb. cbn [split_from]. destruct (isLineBreak c) eqn:Hc; cbn in Hb.
  - assert (Hrun : ∀ p, 2 ≤ length (split_from true p rest)).
    { clear. intros p. revert p. induction rest as [|d rest IH]; intros p; [cbn; lia|].
      cbn [split_from]. destruct (isLineBreak d); [apply IH|].
      cbn [length]. pose proof (split_from_not_nil false (String d "") rest) as Hn.
      destruct (split_from false (String d "") rest); [done|]. cbn. lia. }
    destruct inRun; [apply Hrun|]. cbn [length]. specialize (Hrun (String c "")). lia.
  - destruct inRun.
    + cbn [length]. specialize (IH false (String c "") Hb). cbn in IH. lia.
    + apply (IH false). done.
Qed.

(** X17: a non-empty line without line break is rendered as one div holding
    the line; a line with a line break is rendered as at least three divs;
    and the number of divs of a line is always odd. *)
Theorem toHtmlText_counts (text : string) :
  text ≠ "" →
  (is_segment text → toHtmlText text = [VirtualElement "div" [] [VirtualText text]]) ∧
  (¬ is_segment text → 3 ≤ length (toHtmlText text)) ∧
  Nat.odd (length (toHtmlText text)) = true.
Proof.
  intros Hne. rewrite toHtmlText_pieces. case_decide; [done|]. rewrite length_map.
  split; [|split].
  - intros Hs. unfold split. by rewrite split_from_segment.
  - intros Hs. apply (split_from_break false ""). unfold is_segment in Hs.
    by destruct (all_chars _ text).
  - apply (split_from_parity false).
Qed.

(** The options of the channel selector, written out. *)
Lemma renderChannelSelector_options (w : World) :
  childNodes (renderChannelSelector w) =
    match getVisibleChannels w with
    | [] => [h_option [attr "value" NONE] NONE]
    | _ :: _ =>
        map (λ c,
          h_option
            (attr "value" (name (objects (store w) c)) ::
             if bool_decide (Some c = selectedChannel (widget w))
             then [attr "selected" "selected"] else [])
            (name (objects (store w) c)))
          (getVisibleChannels w)
    end.
Proof.
  unfold renderChannelSelector, h_select. cbn [childNodes].
  rewrite (fold_left_push (λ c, One (h_option
            (attr "value" (name (objects (store w) c)) ::
             if bool_decide (Some c = selectedChannel (widget w))
             then [attr "selected" "selected"] else [])
            (name (objects (store w) c))))).
  - cbn [app]. destruct (getVisibleChannels w) as [|c l].
    + reflexivity.
    + rewrite bool_decide_eq_false_2 by done.
      rewrite <- map_map. apply flatten_One.
  - intros acc c. f_equal. cbn zeta. by case_bool_decide.
Qed.

Lemma filter_selected_options (w : World) (cs : list ref) :
  length (filter (λ o, isSelectedOption o = true)
    (map (λ c,
       h_option
         (attr "value" (name (objects (store w) c)) ::
          if bool_decide (Some c = selectedChannel (widget w))
          then [attr "selected" "selected"] else [])
         (name (objects (store w) c))) cs)) =
  length (filter (λ c, Some c = selectedChannel (widget w)) cs).
Proof.
  induction cs as [|c l IH]; [done|]. cbn [map].
  rewrite !filter_cons. case_bool_decide as Hsel.
  - rewrite decide_True.
    + rewrite decide_True by done. cbn. by rewrite IH.
    + cbn. apply bool_decide_eq_true_2. set_solver.
  - rewrite decide_False.
    + by rewrite decide_False.
    + cbn. rewrite bool_decide_eq_false_2; [done|].
      intros Hin. apply list_elem_of_singleton in Hin. discriminate.
Qed.

(** X18: the channel selector is never empty, it has one option per visible
    channel or the one placeholder; and, the manager's channels being
    distinct, exactly one option is marked selected when the selected
    channel is visible, and none otherwise. *)
Theorem selector_marks_the_visible_selection (w : World) :
  NoDup (channels (store w)) →
  let options := childNodes (renderChannelSelector w) in
  length options = max 1 (length (getVisibleChannels w)) ∧
  length (filter (λ o, isSelectedOption o = true) options) =
    match selectedChannel (widget w) with
    | Some c => if bool_decide (c ∈ getVisibleChannels w) then 1 else 0
    | None => 0
    end.
Proof.
  intros Hnd. cbn zeta. rewrite renderChannelSelector_options.
  assert (Hvis : NoDup (getVisibleChannels w)) by by apply NoDup_filter.
  destruct (getVisibleChannels w) as [|c0 l] eqn:Hv.
  - split; [done|]. rewrite filter_cons_False, filter_nil.
    + destruct (selectedChannel (widget w)); [|done].
      by rewrite bool_decide_eq_false_2 by apply not_elem_of_nil.
    + cbn. rewrite bool_decide_eq_false_2; [done|].
      intros Hin. apply list_elem_of_singleton in Hin. discriminate.
  - split; [rewrite length_map; cbn; lia|].
    rewrite filter_selected_options.
    destruct (selectedChannel (widget w)) as [c|].
    + revert Hvis. generalize (c0 :: l). clear. intros cs Hvis.
      induction Hvis as [|x cs Hx Hnd IH]; [done|].
      rewrite filter_cons. destruct (decide (Some x = Some c)) as [Heq|Heq].
      * injection Heq as ->. rewrite bool_decide_eq_true_2 by apply list_elem_of_here.
        cbn. f_equal. rewrite bool_decide_eq_false_2 in IH by done. exact IH.
      * rewrite IH. case_bool_decide as H1; case_bool_decide as H2; try done.
        -- exfalso. apply H2. by apply list_elem_of_further.
        -- apply elem_of_cons in H2 as [->|H2]; done.
    + generalize (c0 :: l). intros cs. induction cs as [|x cs IH]; [done|].
      by rewrite filter_cons_False.
Qed.

(** What registering the listeners of a list of channels does. *)
Lemma registerListener_fold (cs : list ref) (w : World) :
  let w' := fold_left (λ w c, registerListener c w) cs w in
  store w' = store w ∧
  dom (widget w') = dom (widget w) ∧
  updateRequested (widget w') = updateRequested (widget w) ∧
  toDispose (widget w') = toDispose (widget w) ++ channelSubscriptions cs ∧
  selectedChannel (widget w') =
    match selectedChannel (widget w) with
    | Some c => Some c
    | None => cs !! 0
    end.
Proof.
  cbn zeta. revert w. induction cs as [|c cs IH]; intros w.
  - cbn. rewrite app_nil_r. by destruct (selectedChannel (widget w)).
  - cbn [fold_left]. destruct (IH (registerListener c w)) as (Hs & Hd & Hu & Ht & Hsel).
    rewrite Hs, Hd, Hu, Ht, Hsel. unfold registerListener.
    destruct (selectedChannel (widget w)) eqn:Hw; cbn; rewrite ?Hw;
      by rewrite <- !app_assoc.
Qed.

Lemma init_effect (w : World) :
  store (init w) = store w ∧
  dom (widget (init w)) = dom (widget w) ∧
  updateRequested (widget (init w)) = true ∧
  toDispose (widget (init w)) =
    toDispose (widget w) ++ channelSubscriptions (channels (store w)) ++
      [ChannelAdded; ChannelDelete] ∧
  selectedChannel (widget (init w)) =
    match selectedChannel (widget w) with
    | Some c => Some c
    | None => channels (store w) !! 0
    end.
Proof.
  destruct (registerListener_fold (channels (store w)) w) as (Hs & Hd & Hu & Ht & Hsel).
  unfold init, update, push_toDispose, set_widget.
  cbn [store widget selectedChannel toDispose updateRequested dom].
  rewrite Hs, Hd, Ht, Hsel. by rewrite <- !app_assoc.
Qed.

(** X19: [init] subscribes to the content and the visibility of every
    channel of the manager, in the manager's order, and then to the
    manager's two events; it keeps a selection that is there and otherwise
    selects the manager's first channel, if any; it requests an update and
    changes neither the channels nor the rendered nodes. *)
Theorem init_subscribes_and_selects (w : World) :
  store (init w) = store w ∧
  dom (widget (init w)) = dom (widget w) ∧
  updateRequested (widget (init w)) = true ∧
  toDispose (widget (init w)) =
    toDispose (widget w) ++ channelSubscriptions (channels (store w)) ++
      [ChannelAdded; ChannelDelete] ∧
  selectedChannel (widget (init w)) =
    match selectedChannel (widget w) with
    | Some c => Some c
    | None => channels (store w) !! 0
    end.
Proof. apply init_effect. Qed.

(** X20: [init] selects the manager's first channel even when it is hidden:
    the contents pane then shows the lines of that channel, while the
    selector, which lists visible channels only, marks no option. *)
Theorem init_can_select_a_hidden_channel (w : World) (c : ref) (rest : list ref) :
  selectedChannel (widget w) = None →
  channels (store w) = c :: rest →
  isVisible (objects (store w) c) = false →
  selectedChannel (widget (init w)) = Some c ∧
  childNodes (renderChannelContents (init w)) =
    concat (map toHtmlText (lines (objects (store w) c))) ∧
  filter (λ o, isSelectedOption o = true) (childNodes (renderChannelSelector (init w))) = [].
Proof.
  intros Hnone Hcs Hhidden.
  destruct (init_effect w) as (Hs & _ & _ & _ & Hsel).
  rewrite Hnone, Hcs in Hsel. change (selectedChannel (widget (init w)) = Some c) in Hsel.
  split; [done|]. split.
  - unfold renderChannelContents. rewrite Hsel, Hs. cbn [childNodes h_div].
    rewrite <- (map_map toHtmlText Many). apply flatten_Many.
  - apply length_zero_iff_nil. rewrite renderChannelSelector_options.
    assert (Hvis : c ∉ getVisibleChannels (init w)).
    { unfold getVisibleChannels. rewrite Hs. intros Hin.
      apply list_elem_of_filter in Hin as [Hv _]. congruence. }
    destruct (getVisibleChannels (init w)) as [|c0 l] eqn:Hv.
    + rewrite filter_cons_False; [done|]. cbn.
      rewrite bool_decide_eq_false_2; [done|].
      intros Hin. apply list_elem_of_singleton in Hin. discriminate.
    + rewrite filter_selected_options, Hsel.
      revert Hvis. generalize (c0 :: l). intros cs Hvis.
      induction cs as [|x cs IH]; [done|].
      rewrite filter_cons_False.
      * apply IH. intros Hin. apply Hvis. by apply list_elem_of_further.
      * intros Heq. injection Heq as ->. apply Hvis. apply list_elem_of_here.
Qed.

(** X21: no listener of the widget changes the channels or the rendered
    nodes: registering listeners, a content change, a visibility change, an
    added or a deleted channel, [init] and [update] leave the store and the
    nodes of the last rendering as they are; and a content change of a
    channel that is not the selected one changes nothing at all. *)
Theorem listeners_leave_channels_and_nodes (w : World) :
  let same (w' : World) := store w' = store w ∧ dom (widget w') = dom (widget w) in
  (∀ c, same (registerListener c w)) ∧
  (∀ c, same (onContentChange c w)) ∧
  (∀ c visible, same (onVisibilityChange c visible w)) ∧
  (∀ c, same (onChannelAdded c w)) ∧
  (∀ channelName, same (onChannelDelete channelName w)) ∧
  same (init w) ∧
  same (update w) ∧
  (∀ c, Some c ≠ selectedChannel (widget w) → onContentChange c w = w).
Proof.
  cbn zeta. repeat split.
  - unfold registerListener. by destruct (selectedChannel (widget w)).
  - unfold registerListener. by destruct (selectedChannel (widget w)).
  - unfold onContentChange. by case_bool_decide.
  - unfold onContentChange. by case_bool_decide.
  - unfold onVisibilityChange. destruct visible; [done|]. by case_bool_decide.
  - unfold onVisibilityChange. destruct visible; [done|]. by case_bool_decide.
  - unfold onChannelAdded, registerListener. by destruct (selectedChannel (widget w)).
  - unfold onChannelAdded, registerListener. by destruct (selectedChannel (widget w)).
  - unfold onChannelDelete. destruct (selectedChannel (widget w)); [|done].
    by case_bool_decide.
  - unfold onChannelDelete. destruct (selectedChannel (widget w)); [|done].
    by case_bool_decide.
  - by destruct (init_effect w) as (Hs & _).
  - by destruct (init_effect w) as (_ & Hd & _).
  - intros c Hne. unfold onContentChange. by rewrite bool_decide_eq_false_2.
Qed.




End OutputCoverage.

(** * The further statements on the highlighting session *)
Section HighlightingCoverageChecks.

Import Highlighting HighlightingSpec HighlightingSession Colors.

Local Abbreviation decorate_ := (decorate theme_match getClassNameFromMetadata).
Local Abbreviation toDecoration_ := (toDecoration theme_match getClassNameFromMetadata).
Local Abbreviation keyA := (URI.toString uriA).

Lemma decorate_touches_one_uri_and_one_editor_witness :
  getByUri world2 = getByUri world1 ∧
  colorMapCache (service world2) = colorMapCache (service world1) ∧
  (∀ key', key' ≠ keyA →
     decorations (service world2) !! key' = decorations (service world1) !! key' ∧
     toDisposeOnEditorClose (service world2) !! key' =
       toDisposeOnEditorClose (service world1) !! key') ∧
  (∀ r, getByUri world1 uriA ≠ Some {| editor := r |} → editors world2 r = editors world1 r).
Proof.
  apply (decorate_touches_one_uri_and_one_editor theme_match getClassNameFromMetadata
           world1 world2 uriA ranges2 (Returned tt)).
  vm_compute. reflexivity.
Defined.

Lemma decorate_registers_the_listener_once_witness :
  onDisposeListeners (editors world1 0%nat) =
    onDisposeListeners (editors world0 0%nat) ++
      match toDisposeOnEditorClose (service world0) !! keyA with
      | None => [DeleteDecorations keyA 0%nat]
      | Some _ => []
      end ∧
  is_Some (toDisposeOnEditorClose (service world1) !! keyA).
Proof.
  apply (decorate_registers_the_listener_once theme_match getClassNameFromMetadata
           world0 world1 uriA ranges1 {| editor := 0%nat |} (Returned tt));
    vm_compute; reflexivity.
Defined.

Lemma decorate_throws_when_the_editor_throws_witness :
  (decorate_ uriA ranges1 brokenWorld).2 = Thrown "disposed" ∧
  decorations (service (decorate_ uriA ranges1 brokenWorld).1) =
    decorations (service brokenWorld) ∧
  is_Some (toDisposeOnEditorClose (service (decorate_ uriA ranges1 brokenWorld).1) !! keyA) ∧
  length (calls (editors (decorate_ uriA ranges1 brokenWorld).1 0%nat)) =
    S (length (calls (editors brokenWorld 0%nat))).
Proof.
  apply (decorate_throws_when_the_editor_throws theme_match getClassNameFromMetadata
           brokenWorld _ uriA ranges1 {| editor := 0%nat |});
    vm_compute; reflexivity.
Defined.

Lemma new_decorations_mirror_the_cached_ranges_witness :
  ∃ params cached,
    calls (editors world2 0%nat) = calls (editors world1 0%nat) ++ [params] ∧
    decorations (service world2) !! keyA = Some cached ∧
    newDecorations params = map toDecoration_ (DecorationWithRanges.ranges cached) ∧
    length (newDecorations params) = length (DecorationWithRanges.ranges cached).
Proof.
  apply (new_decorations_mirror_the_cached_ranges theme_match getClassNameFromMetadata
           world1 world2 uriA ranges2 {| editor := 0%nat |});
    vm_compute; reflexivity.
Defined.

Lemma second_call_replaces_the_ids_of_the_first_witness :
  ∃ params1 params2 ids,
    calls (editors world2 0%nat) = calls (editors world0 0%nat) ++ [params1; params2] ∧
    (deltaDecorations (model (editors world0 0%nat)) params1).2 = Returned ids ∧
    oldDecorations params2 = ids.
Proof.
  apply (second_call_replaces_the_ids_of_the_first theme_match getClassNameFromMetadata
           world0 world1 world2 uriA ranges1 ranges2 {| editor := 0%nat |} (Returned tt));
    vm_compute; reflexivity.
Defined.

Lemma decorate_with_no_range_keeps_the_cache_witness :
  DecorationWithRanges.ranges <$>
    decorations (service (decorate_ uriA [] world1).1) !! keyA =
    Some (DecorationWithRanges.ranges cached1) ∧
  ∃ params,
    calls (editors (decorate_ uriA [] world1).1 0%nat) =
      calls (editors world1 0%nat) ++ [params] ∧
    oldDecorations params = DecorationWithRanges.decorations cached1 ∧
    newDecorations params = map toDecoration_ (DecorationWithRanges.ranges cached1).
Proof.
  apply (decorate_with_no_range_keeps_the_cache theme_match getClassNameFromMetadata
           world1 _ uriA {| editor := 0%nat |} cached1);
    vm_compute; reflexivity.
Defined.

Lemma later_update_covers_earlier_one_witness :
  rangesToCache
    {| DecorationWithRanges.decorations := ["d3"; "d4"; "d5"];
       DecorationWithRanges.ranges := rangesToCache cached1 ranges2 |}
    [span 2 0 3 "type"; span 5 1 2 "type"; span 7 0 1 "type"] =
  rangesToCache cached1 [span 2 0 3 "type"; span 5 1 2 "type"; span 7 0 1 "type"].
Proof.
  apply (later_update_covers_earlier_one cached1 ranges2).
  apply (bool_decide_unpack _). vm_compute. exact I.
Defined.

Lemma updates_of_disjoint_lines_commute_witness :
  rangesToCache
    {| DecorationWithRanges.decorations := ["d3"; "d4"; "d5"];
       DecorationWithRanges.ranges := rangesToCache cached1 ranges2 |}
    [span 7 0 1 "type"] ≡ₚ
  rangesToCache
    {| DecorationWithRanges.decorations := ["d3"];
       DecorationWithRanges.ranges := rangesToCache cached1 [span 7 0 1 "type"] |}
    ranges2.
Proof.
  apply (updates_of_disjoint_lines_commute cached1 ranges2 [span 7 0 1 "type"]).
  apply (bool_decide_unpack _). vm_compute. exact I.
Defined.

Lemma deleteDecorations_once_is_enough_witness :
  decorations (service (run (deleteDecorations keyA 0%nat) world2)) !! keyA = None ∧
  deleteDecorations keyA 2%nat (run (deleteDecorations keyA 0%nat) world2) =
    (run (deleteDecorations keyA 0%nat) world2, Returned tt).
Proof.
  apply (deleteDecorations_once_is_enough world2 _ keyA 0%nat 2%nat).
  vm_compute. reflexivity.
Defined.

Lemma decorate_then_close_forgets_the_uri_witness :
  ∃ cached,
    decorations (service world1) !! keyA = Some cached ∧
    let params := {| uri := None;
                     oldDecorations := DecorationWithRanges.decorations cached;
                     newDecorations := [] |} in
    calls (editors (run (closeEditor 0%nat) world1) 0%nat) =
      calls (editors world1 0%nat) ++ [params] ∧
    match (deltaDecorations (model (editors world1 0%nat)) params).2 with
    | Returned _ => decorations (service (run (closeEditor 0%nat) world1)) !! keyA = None
    | Thrown _ => decorations (service (run (closeEditor 0%nat) world1)) =
                    decorations (service world1)
    end.
Proof.
  apply (decorate_then_close_forgets_the_uri theme_match getClassNameFromMetadata
           world0 world1 _ uriA ranges1 {| editor := 0%nat |} (Returned tt));
    vm_compute; reflexivity.
Defined.

Lemma known_uri_gets_no_close_listener_witness :
  onDisposeListeners (editors world4 2%nat) = [] ∧
  closeEditor 2%nat world4 = (world4, Returned tt) ∧
  is_Some (decorations (service world4) !! keyA).
Proof.
  apply (known_uri_gets_no_close_listener theme_match getClassNameFromMetadata
           world3 world4 uriA ranges1 {| editor := 2%nat |});
    try (vm_compute; reflexivity).
  vm_compute. eexists. reflexivity.
Defined.

Lemma cached_uris_stay_registered_witness :
  cached_uris_are_registered (service world2) ∧
  cached_uris_are_registered (service (run (deleteDecorations keyA 0%nat) world1)) ∧
  cached_uris_are_registered (service (run (closeEditor 0%nat) world1)).
Proof.
  assert (H0 : cached_uris_are_registered (service world0)).
  { intros key [c Hc]. vm_compute in Hc. discriminate. }
  assert (H1 : cached_uris_are_registered (service world1)).
  { apply (proj1 (cached_uris_stay_registered theme_match getClassNameFromMetadata
                    world0 world1 H0) uriA ranges1 (Returned tt)).
    vm_compute. reflexivity. }
  split; [|split].
  - apply (proj1 (cached_uris_stay_registered theme_match getClassNameFromMetadata
                    world1 world2 H1) uriA ranges2 (Returned tt)).
    vm_compute. reflexivity.
  - apply (proj1 (proj2 (cached_uris_stay_registered theme_match getClassNameFromMetadata
                    world1 (run (deleteDecorations keyA 0%nat) world1) H1))
             keyA 0%nat (Returned tt)).
    vm_compute. reflexivity.
  - apply (proj2 (proj2 (cached_uris_stay_registered theme_match getClassNameFromMetadata
                    world1 (run (closeEditor 0%nat) world1) H1))
             0%nat (Returned tt)).
    vm_compute. reflexivity.
Defined.

Lemma first_scope_decides_the_options_witness :
  options (toDecoration_ {| start := {| line := 1; character := 0 |};
                            end_ := {| line := 1; character := 5 |};
                            scopes := ["keyword"; "source.ts"] |}) =
  options (toDecoration_ (span 4 2 6 "keyword")).
Proof.
  apply (first_scope_decides_the_options theme_match getClassNameFromMetadata
           {| start := {| line := 1; character := 0 |};
              end_ := {| line := 1; character := 5 |};
              scopes := ["keyword"; "source.ts"] |} (span 4 2 6 "keyword")).
  reflexivity.
Defined.


End HighlightingCoverageChecks.

(** * The further statements on the output session *)
Section OutputCoverageChecks.

Import Output OutputSpec OutputReading OutputSession.

Local Open Scope nat_scope.

(** A manager whose first channel is hidden. *)
Local Abbreviation hiddenFirst :=
  {| store := {| objects := objects (store world3); channels := [0; 2] |};
     widget := widget world0 |}.

Lemma toHtmlText_keeps_every_character_witness :
  concat_pieces (map textContent (toHtmlText ("a" +:+ LF +:+ LF +:+ "b" +:+ LF))) =
    "a" +:+ LF +:+ LF +:+ "b" +:+ LF ∧
  toHtmlText "" = [VirtualElement "div" [] [VirtualText "<no output yet>"]].
Proof.
  apply (toHtmlText_keeps_every_character ("a" +:+ LF +:+ LF +:+ "b" +:+ LF)).
  vm_compute. discriminate.
Defined.

Lemma toHtmlText_counts_witness :
  (is_segment "hello" → toHtmlText "hello" = [VirtualElement "div" [] [VirtualText "hello"]]) ∧
  (¬ is_segment "hello" → 3 ≤ length (toHtmlText "hello")) ∧
  Nat.odd (length (toHtmlText "hello")) = true.
Proof. apply (toHtmlText_counts "hello"). discriminate. Defined.

Lemma selector_marks_the_visible_selection_witness :
  length (childNodes (renderChannelSelector world1)) =
    max 1 (length (getVisibleChannels world1)) ∧
  length (filter (λ o, isSelectedOption o = true) (childNodes (renderChannelSelector world1))) =
    match selectedChannel (widget world1) with
    | Some c => if bool_decide (c ∈ getVisibleChannels world1) then 1 else 0
    | None => 0
    end.
Proof.
  apply (selector_marks_the_visible_selection world1).
  apply (bool_decide_unpack _). vm_compute. exact I.
Defined.

Lemma init_can_select_a_hidden_channel_witness :
  selectedChannel (widget (init hiddenFirst)) = Some 0 ∧
  childNodes (renderChannelContents (init hiddenFirst)) =
    concat (map toHtmlText (lines (objects (store hiddenFirst) 0))) ∧
  filter (λ o, isSelectedOption o = true)
    (childNodes (renderChannelSelector (init hiddenFirst))) = [].
Proof.
  apply (init_can_select_a_hidden_channel hiddenFirst 0 [2]); reflexivity.
Defined.

Lemma listeners_leave_channels_and_nodes_witness :
  onContentChange 2 world1 = world1.
Proof.
  apply (listeners_leave_channels_and_nodes world1). discriminate.
Defined.


End OutputCoverageChecks.
